(** * cpdax: request signing, error classification and market normalisation

    A shallow embedding of [js/cpdax.js] (class [cpdax extends Exchange]):
    [describe], [fetchMarkets], [sign] and [handleErrors], together with the
    fragment of the language's value semantics these methods rely on
    (property lookup, the [in] operator, [+] and [*] with their coercions,
    [String.prototype.split], [indexOf], [toUpperCase]).

    Methods inherited from [base/Exchange.js] and the built-ins of the
    language runtime are not part of [js/cpdax.js]; they enter the development
    as the interfaces [JsRuntime] and [ExchangeBase], and every general
    theorem holds for all their implementations. *)

From Stdlib Require Import String Ascii List ZArith Lia Bool Floats.
From Stdlib Require Import QArith Qround DecimalString.
Import ListNotations.
Local Open Scope list_scope.
Local Open Scope string_scope.

Set Warnings "-register-all,-inexact-float".

(** ** Values *)

(** The values the methods handle: what [JSON.parse] produces, plus
    [undefined].  Numbers are IEEE 754 binary64, as in the language. *)
Inductive JsValue : Type :=
| JUndefined
| JNull
| JBool (b : bool)
| JNum (x : float)
| JStr (s : string)
| JArr (items : list JsValue)
| JObj (fields : list (string * JsValue)).

(** A plain object: its own properties in insertion order. *)
Definition Obj : Type := list (string * JsValue).

(** Own-property lookup in an insertion-ordered table. *)
Fixpoint lookup {A : Type} (k : string) (tbl : list (string * A)) : option A :=
  match tbl with
  | [] => None
  | (k', v) :: rest => if String.eqb k k' then Some v else lookup k rest
  end.

Definition keys {A : Type} (tbl : list (string * A)) : list string :=
  map fst tbl.

(** ** Results of a call: a value, or a thrown exception *)

(** The error classes [js/cpdax.js] imports from [base/errors]. *)
Inductive ErrorKind : Type :=
| NotSupported | DDoSProtection | AuthenticationError | PermissionDenied
| ArgumentsRequired | ExchangeError | ExchangeNotAvailable | InsufficientFunds
| InvalidOrder | OrderNotFound | InvalidNonce.

Inductive Exception : Type :=
| CcxtError (kind : ErrorKind) (message : string)  (* [new Kind (message)] *)
| SyntaxError                                      (* raised by [JSON.parse] *)
| TypeError                                        (* raised by the runtime *)
| ThrownValue (v : JsValue).                       (* [throw] of a non-error *)

Inductive Outcome (A : Type) : Type :=
| Return (a : A)
| Throw (e : Exception).
Arguments Return {A} a.
Arguments Throw {A} e.

Definition bind {A B : Type} (c : Outcome A) (k : A -> Outcome B) : Outcome B :=
  match c with
  | Return a => k a
  | Throw e => Throw e
  end.

Declare Scope outcome_scope.
Delimit Scope outcome_scope with outcome.
Notation "x <- c ;; k" := (bind c (fun x => k))
  (at level 61, c at next level, right associativity) : outcome_scope.
Local Open Scope outcome_scope.

(** ** Strings *)

(** [s.indexOf (key) >= 0]. *)
Definition includes (key s : string) : bool :=
  match index 0 key s with
  | Some _ => true
  | None => false
  end.

(** [key] occurs in [s]. *)
Definition Substring (key s : string) : Prop :=
  exists pre post, s = pre ++ key ++ post.

(** [s.split (sep)] for a one-character separator: never empty. *)
Fixpoint split (sep : ascii) (s : string) : list string :=
  match s with
  | EmptyString => [EmptyString]
  | String c rest =>
      if Ascii.eqb c sep then EmptyString :: split sep rest
      else match split sep rest with
           | [] => [String c EmptyString]
           | seg :: segs => String c seg :: segs
           end
  end.

(** [a[i]] on an array: [undefined] past the end. *)
Definition item (segs : list string) (i : nat) : JsValue :=
  match nth_error segs i with
  | Some s => JStr s
  | None => JUndefined
  end.

Definition upper_ascii (c : ascii) : ascii :=
  let n := nat_of_ascii c in
  if (97 <=? n)%nat && (n <=? 122)%nat then ascii_of_nat (n - 32) else c.

(** [s.toUpperCase ()], on the ASCII letters. *)
Fixpoint toUpperCase (s : string) : string :=
  match s with
  | EmptyString => EmptyString
  | String c rest => String (upper_ascii c) (toUpperCase rest)
  end.

(** [s[0]]: the first character, [undefined] for the empty string. *)
Definition first_char (s : string) : option ascii :=
  match s with
  | EmptyString => None
  | String c _ => Some c
  end.

(** ** The runtime's built-ins *)

Class JsRuntime : Type := {
  (** [JSON.parse (text)]; [None] when it raises [SyntaxError]. *)
  JSON_parse : string -> option JsValue;
  (** [JSON.stringify (value)]. *)
  JSON_stringify : JsValue -> string;
  (** [Number.prototype.toString], the rendering used by string coercion. *)
  Number_toString : float -> string;
  (** [Function.prototype.toString] of the built-in function of that name;
      the language leaves the text to the implementation. *)
  Function_toString : string -> string
}.

Section Coercions.
Context {RT : JsRuntime}.

(** [String (v)]: arrays join their items with a comma, [null] and
    [undefined] items being empty; plain objects print as a fixed tag. *)
Fixpoint ToString (v : JsValue) : string :=
  match v with
  | JUndefined => "undefined"
  | JNull => "null"
  | JBool true => "true"
  | JBool false => "false"
  | JNum x => Number_toString x
  | JStr s => s
  | JArr items =>
      let piece (x : JsValue) : string :=
        match x with
        | JUndefined | JNull => EmptyString
        | _ => ToString x
        end in
      (fix join (l : list JsValue) : string :=
         match l with
         | [] => EmptyString
         | [x] => piece x
         | x :: rest => piece x ++ "," ++ join rest
         end) items
  | JObj _ => "[object Object]"
  end.

(** [Number (v)] on the values that are not strings or objects. *)
Definition ToNumber (v : JsValue) : float :=
  match v with
  | JNum x => x
  | JBool true => 1%float
  | JBool false | JNull => 0%float
  | _ => nan
  end.

(** The operand makes [+] a concatenation: it is a string, or an object
    (whose primitive value is a string). *)
Definition concatenates (v : JsValue) : bool :=
  match v with
  | JStr _ | JArr _ | JObj _ => true
  | _ => false
  end.

(** [a + b]. *)
Definition js_add (a b : JsValue) : JsValue :=
  if concatenates a || concatenates b
  then JStr (ToString a ++ ToString b)
  else JNum (ToNumber a + ToNumber b)%float.

End Coercions.

(** [a * b] where each operand is a number or [undefined]:
    [undefined] converts to [NaN]. *)
Definition js_mul (a b : option float) : float :=
  let num (v : option float) : float :=
    match v with
    | Some x => x
    | None => nan
    end in
  (num a * num b)%float.

(** The properties every plain object inherits from [Object.prototype]. *)
Definition Object_prototype : list string :=
  [ "constructor"; "hasOwnProperty"; "isPrototypeOf"; "propertyIsEnumerable";
    "toLocaleString"; "toString"; "valueOf"; "__proto__";
    "__defineGetter__"; "__defineSetter__";
    "__lookupGetter__"; "__lookupSetter__" ].

Definition inherited (k : string) : bool :=
  existsb (String.eqb k) Object_prototype.

(** [String (o[k])] for a plain object [o] and a name [k] it inherits, as
    [+] takes it: [__proto__] reads the prototype itself, every other name
    a built-in function, which for [constructor] is [Object]. *)
Definition prototype_text {RT : JsRuntime} (k : string) : string :=
  if String.eqb k "__proto__" then "[object Object]"
  else if String.eqb k "constructor" then Function_toString "Object"
  else Function_toString k.

(** [k in tbl] for a plain object [tbl]: own or inherited. *)
Definition js_in_table {A : Type} (k : string) (tbl : list (string * A)) : bool :=
  match lookup k tbl with
  | Some _ => true
  | None => inherited k
  end.

(** [k in v], for a key that is not an index, [length] or an array
    method: a [TypeError] when [v] is not an object. *)
Definition js_in (k : string) (v : JsValue) : Outcome bool :=
  match v with
  | JObj fields => Return (js_in_table k fields)
  | JArr _ => Return (inherited k)
  | _ => Throw TypeError
  end.

(** [v[k]] for a key [k] that no prototype defines: the own property of an
    object, [undefined] on other values, a [TypeError] on [null] and
    [undefined]. *)
Definition js_get (v : JsValue) (k : string) : Outcome JsValue :=
  match v with
  | JUndefined | JNull => Throw TypeError
  | JObj fields =>
      Return match lookup k fields with
             | Some x => x
             | None => JUndefined
             end
  | _ => Return JUndefined
  end.

(** [new tbl[k] (feedback)], thrown: an own entry of the table is an error
    class; the inherited [constructor] is [Object], which wraps the text;
    no other inherited property, and no missing one, can be constructed. *)
Definition throw_new (tbl : list (string * ErrorKind)) (k feedback : string)
  : Exception :=
  match lookup k tbl with
  | Some kind => CcxtError kind feedback
  | None =>
      if String.eqb k "constructor" then ThrownValue (JStr feedback)
      else TypeError
  end.

(** [s.split (sep)] as a method call: only strings have the method. *)
Definition js_split (v : JsValue) (sep : ascii) : Outcome (list string) :=
  match v with
  | JStr s => Return (split sep s)
  | _ => Throw TypeError
  end.

(** ** Methods inherited from [base/Exchange.js] *)

Class ExchangeBase : Type := {
  (** [this.implodeParams (path, params)] *)
  implodeParams : string -> Obj -> string;
  (** [this.extractParams (path)] *)
  extractParams : string -> list string;
  (** [this.omit (params, keys)] *)
  omit : Obj -> list string -> Obj;
  (** [this.extend (a, b)] *)
  extend : Obj -> Obj -> Obj;
  (** [this.urlencode (query)] *)
  urlencode : Obj -> string;
  (** [this.hmac (payload, secret, hash)]; it may raise. *)
  hmac : JsValue -> JsValue -> string -> Outcome string;
  (** [this.json (value)] *)
  json : JsValue -> string;
  (** [this.findBroadlyMatchedKey (broad, message)]: a key or [undefined];
      it may raise. *)
  findBroadlyMatchedKey :
    list (string * ErrorKind) -> JsValue -> Outcome (option string);
  (** [this.commonCurrencyCode (id)] *)
  commonCurrencyCode : JsValue -> JsValue;
  (** [this.safeFloat (object, key)]: a number or [undefined]. *)
  safeFloat : JsValue -> string -> option float
}.

(** Modelled from the spec: [findBroadlyMatchedKey] is a method of
    [base/Exchange.js], which is not among the sources.  The spec (4.3)
    has the classifier "scan the broad table in declaration order" and take
    "the first key that is a substring of message". *)
Fixpoint broadlyMatchedKey (broad : list (string * ErrorKind)) (message : string)
  : option string :=
  match broad with
  | [] => None
  | (key, _) :: rest =>
      if includes key message then Some key else broadlyMatchedKey rest message
  end.

(** ** The instance: [describe ()] *)

Module Exceptions.
Record t : Type := {
  exact : list (string * ErrorKind);
  broad : list (string * ErrorKind)
}.
End Exceptions.

Module Urls.
Record t : Type := {
  logo : string;
  api : list (string * string);
  www : string;
  doc : string;
  fees : string
}.
End Urls.

(** The fields of [this] that [describe ()] sets and the methods read. *)
Record Cpdax : Type := {
  id : string;
  name : string;
  countries : list string;
  version : string;
  rateLimit : Z;
  certified : bool;
  urls : Urls.t;
  api : list (string * list (string * list string));
  exceptions : Exceptions.t;
  apiKey : JsValue;
  secret : JsValue
}.

(** The double quote, for the two table keys that quote a number. *)
Definition dquote : string := String (ascii_of_nat 34) EmptyString.

Definition quoted (s : string) : string := dquote ++ s ++ dquote.

Definition describe : Cpdax := {|
  id := "cpdax";
  name := "Cpdax";
  countries := [ "KR" ];
  version := "v1";
  rateLimit := 1500;
  certified := true;
  urls := {|
    Urls.logo := "https://user-images.githubusercontent.com/1294454/27766244-e328a50c-5ed2-11e7-947b-041416579bb3.jpg";
    Urls.api := [ ("public", "https://www.cpdax.com");
                  ("private", "https://www.cpdax.com") ];
    Urls.www := "https://www.cpdax.com";
    Urls.doc := "https://apidocs-eng.cpdax.com/reference";
    Urls.fees := "https://www.cpdax.com/static/en/fee-schedule.html"
  |};
  api := [
    ("public", [
       ("get", [ "currencies"; "products"; "tickers"; "tickers/detailed";
                 "tickers/{symbol}"; "tickers/{symbol}/detailed";
                 "trades/{symbol}"; "orderbook/{symbol}" ]) ]);
    ("private", [
       ("post", [ "orders" ]);
       ("get", [ "orders/{symbol}"; "orders/{symbol}/{id}"; "fee-rates";
                 "balance"; "transactions/{product_id}" ]);
       ("delete", [ "orders/{symbol}/{id}"; "orders/{symbol}" ]) ])
  ];
  exceptions := {|
    Exceptions.exact := [
      ("temporarily_unavailable", ExchangeNotAvailable);
      ("Order could not be cancelled.", OrderNotFound);
      ("No such order found.", OrderNotFound);
      ("Order price must be positive.", InvalidOrder);
      ("Could not find a key matching the given X-BFX-APIKEY.", AuthenticationError);
      ("Key price should be a decimal number, e.g. " ++ quoted "123.456", InvalidOrder);
      ("Key amount should be a decimal number, e.g. " ++ quoted "123.456", InvalidOrder);
      ("ERR_RATE_LIMIT", DDoSProtection);
      ("Ratelimit", DDoSProtection);
      ("Nonce is too small.", InvalidNonce);
      ("No summary found.", ExchangeError);
      ("Cannot evaluate your available balance, please try again", ExchangeNotAvailable)
    ];
    Exceptions.broad := [
      ("This API key does not have permission", PermissionDenied);
      ("Invalid order: not enough exchange balance for ", InsufficientFunds);
      ("Invalid order: minimum size for ", InvalidOrder);
      ("Invalid order", InvalidOrder);
      ("The available balance is only", InsufficientFunds)
    ]
  |};
  apiKey := JStr "752d07a5cef56223ed1b0c558fbcfb444f012f4338d132eb46c8ca6c7981928a";
  secret := JStr "MmIyNDRiYTctMDMzMy00ODkyLThlNTgtZTRhNmRlN2ZjZDZm"
|}.

(** An instance whose configuration sets the credentials: the other fields
    keep what [describe ()] gives them. *)
Definition with_credentials (this : Cpdax) (key password : JsValue) : Cpdax := {|
  id := id this;
  name := name this;
  countries := countries this;
  version := version this;
  rateLimit := rateLimit this;
  certified := certified this;
  urls := urls this;
  api := api this;
  exceptions := exceptions this;
  apiKey := key;
  secret := password
|}.

(** An instance whose configuration sets the error tables. *)
Definition with_exceptions (this : Cpdax) (tables : Exceptions.t) : Cpdax := {|
  id := id this;
  name := name this;
  countries := countries this;
  version := version this;
  rateLimit := rateLimit this;
  certified := certified this;
  urls := urls this;
  api := api this;
  exceptions := tables;
  apiKey := apiKey this;
  secret := secret this
|}.

(** [Object.keys (headers)]. *)
Definition header_names (headers : JsValue) : list string :=
  match headers with
  | JObj fields => keys fields
  | _ => []
  end.

(** The paths [describe ()] declares for an API class, over all methods. *)
Definition declared_paths (this : Cpdax) (class : string) : list string :=
  match lookup class (api this) with
  | Some by_method => flat_map snd by_method
  | None => []
  end.

(** ** Canonical records *)

Module Request.
(** What [sign] returns: [{ url, method, body, headers }]. *)
Record t : Type := {
  url : string;
  method : string;
  body : JsValue;
  headers : JsValue
}.
End Request.

Module Limit.
(** A [{ min, max }] pair; [None] is [undefined]. *)
Record t : Type := {
  min : option float;
  max : option float
}.
End Limit.

Module Limits.
Record t : Type := {
  amount : Limit.t;
  price : Limit.t;
  cost : Limit.t
}.
End Limits.

Module Precision.
Record t : Type := {
  price : JsValue;
  amount : JsValue
}.
End Precision.

Module Market.
(** An entry of the list [fetchMarkets] returns. *)
Record t : Type := {
  id : JsValue;
  symbol : JsValue;
  base : JsValue;
  quote : JsValue;
  baseId : JsValue;
  quoteId : JsValue;
  active : bool;
  precision : Precision.t;
  limits : Limits.t;
  info : JsValue
}.
End Market.

(** ** The methods of [cpdax] *)

Section Methods.
Context {RT : JsRuntime} {Base : ExchangeBase}.
Variable this : Cpdax.

(** The body of the loop of [fetchMarkets], for one record of the response. *)
Definition fetchMarkets_entry (market : JsValue) : Outcome Market.t :=
  id <- js_get market "product_id" ;;
  segments <- js_split id "-" ;;
  let baseId := item segments 0 in
  let quoteId := item segments 1 in
  let base := commonCurrencyCode baseId in
  let quote := commonCurrencyCode quoteId in
  let symbol := js_add (js_add base (JStr "/")) quote in
  quote_increment <- js_get market "quote_increment" ;;
  unit_size <- js_get market "unit_size" ;;
  let precision := {|
    Precision.price := quote_increment;
    Precision.amount := unit_size
  |} in
  let amount := {|
    Limit.min := safeFloat market "min_size";
    Limit.max := safeFloat market "max_size"
  |} in
  let price := {|
    Limit.min := Some 2%float;
    Limit.max := Some 100%float
  |} in
  let cost := {|
    Limit.min := Some (js_mul (Limit.min amount) (Limit.min price));
    Limit.max := None
  |} in
  Return {|
    Market.id := id;
    Market.symbol := symbol;
    Market.base := base;
    Market.quote := quote;
    Market.baseId := baseId;
    Market.quoteId := quoteId;
    Market.active := true;
    Market.precision := precision;
    Market.limits := {|
      Limits.amount := amount;
      Limits.price := price;
      Limits.cost := cost
    |};
    Market.info := market
  |}.

(** The loop: entries are pushed onto [result] in order; an exception
    leaves the loop and the method. *)
Fixpoint fetchMarkets_loop (markets : list JsValue) (result : list Market.t)
  : Outcome (list Market.t) :=
  match markets with
  | [] => Return result
  | market :: rest =>
      entry <- fetchMarkets_entry market ;;
      fetchMarkets_loop rest (result ++ [entry])%list
  end.

(** [fetchMarkets ()], on the response [markets] of [publicGetProducts]. *)
Definition fetchMarkets (markets : list JsValue) : Outcome (list Market.t) :=
  fetchMarkets_loop markets [].

(** The entry the loop body pushes for a record whose [product_id] is the
    string [s]; the properties of [fetchMarkets] are stated with it. *)
Definition entry_of (market : JsValue) (s : string) (quote_increment unit_size : JsValue)
  : Market.t :=
  let baseId := item (split "-" s) 0 in
  let quoteId := item (split "-" s) 1 in
  {|
    Market.id := JStr s;
    Market.symbol :=
      js_add (js_add (commonCurrencyCode baseId) (JStr "/")) (commonCurrencyCode quoteId);
    Market.base := commonCurrencyCode baseId;
    Market.quote := commonCurrencyCode quoteId;
    Market.baseId := baseId;
    Market.quoteId := quoteId;
    Market.active := true;
    Market.precision := {|
      Precision.price := quote_increment;
      Precision.amount := unit_size
    |};
    Market.limits := {|
      Limits.amount := {|
        Limit.min := safeFloat market "min_size";
        Limit.max := safeFloat market "max_size"
      |};
      Limits.price := {| Limit.min := Some 2%float; Limit.max := Some 100%float |};
      Limits.cost := {|
        Limit.min := Some (js_mul (safeFloat market "min_size") (Some 2%float));
        Limit.max := None
      |}
    |};
    Market.info := market
  |}.

(** [sign (path, api, method, params, headers, body)]; [nonce] is the value
    [this.nonce ()] returns during the call. *)
Definition sign (nonce : float) (path api method : string) (params : Obj)
    (headers body : JsValue) : Outcome Request.t :=
  let request := "/" ++ implodeParams path params in
  let request := "/" ++ version this ++ request in
  let query := omit params (extractParams path) in
  (* [url = this.urls['api'] + request] is overwritten before it is read *)
  let request :=
    if String.eqb api "public" || includes "/hist" path then
      match keys query with
      | [] => request
      | _ :: _ => request ++ ("?" ++ urlencode query)
      end
    else request in
  signed <-
    (if String.eqb api "private" then
       let timestamp := JNum nonce in
       (* [query = this.extend ({ request }, query)] is not read again *)
       let payload :=
         js_add (js_add (js_add (apiKey this) timestamp)
                        (JStr (toUpperCase method)))
                (JStr request) in
       (* [method == 'POST' && params]: [params] is an object, hence truthy *)
       let '(body, payload) :=
         if String.eqb method "POST"
         then (JObj params, js_add payload (JStr (JSON_stringify (JObj params))))
         else (body, payload) in
       signature <- hmac payload (secret this) "sha256" ;;
       Return (body,
               JObj [ ("CP-ACCESS-KEY", apiKey this);
                      ("CP-ACCESS-TIMESTAMP", timestamp);
                      ("CP-ACCESS-DIGEST", JStr signature) ])
     else Return (body, headers)) ;;
  let '(body, headers) := signed in
  (* [this.urls['api'][api]]: an own entry, or what the object inherits
     under that name, taken as the text [+] makes of it, or [undefined] *)
  let base_url :=
    match lookup api (Urls.api (urls this)) with
    | Some u => JStr u
    | None => if inherited api then JStr (prototype_text api) else JUndefined
    end in
  let url := ToString (js_add base_url (JStr request)) in
  Return {|
    Request.url := url;
    Request.method := method;
    Request.body := body;
    Request.headers := headers
  |}.

(** The expressions of [sign], named for the statements about it. *)

(** [this.omit (params, this.extractParams (path))]: the parameters that
    are not path placeholders. *)
Definition remaining_params (path : string) (params : Obj) : Obj :=
  omit params (extractParams path).

(** [suffix], the query string of [query]; nothing when [query] has no
    key. *)
Definition query_suffix (query : Obj) : string :=
  match keys query with
  | [] => EmptyString
  | _ :: _ => "?" ++ urlencode query
  end.

(** The final value of [request]: the version, the path with its
    placeholders filled in, and the query string where the guard lets it
    through. *)
Definition requested_path (path api : string) (params : Obj) : string :=
  "/" ++ version this ++ "/" ++ implodeParams path params ++
  (if String.eqb api "public" || includes "/hist" path
   then query_suffix (remaining_params path params)
   else EmptyString).

(** [this.urls['api'][api]], as the concatenation reads it. *)
Definition api_origin (api : string) : string :=
  match lookup api (Urls.api (urls this)) with
  | Some u => u
  | None => if inherited api then prototype_text api else "undefined"
  end.

(** The final value of [payload]. *)
Definition signed_payload (nonce : float) (path api method : string)
    (params : Obj) : JsValue :=
  let head :=
    js_add (js_add (js_add (apiKey this) (JNum nonce)) (JStr (toUpperCase method)))
           (JStr (requested_path path api params)) in
  if String.eqb method "POST"
  then js_add head (JStr (JSON_stringify (JObj params)))
  else head.

(** [handleErrors (code, reason, url, method, headers, body)]. *)
Definition handleErrors (code : Z) (reason url method : string)
    (headers : JsValue) (body : string) : Outcome unit :=
  if (String.length body <? 2)%nat then Return tt
  else if (400 <=? code)%Z then
    match first_char body with
    | Some c =>
        if Ascii.eqb c "{" then
          match JSON_parse body with
          | None => Throw SyntaxError
          | Some response =>
              let feedback := id this ++ " " ++ json response in
              has_message <- js_in "message" response ;;
              message <-
                (if has_message : bool then js_get response "message"
                 else
                   has_error <- js_in "error" response ;;
                   if has_error : bool then js_get response "error"
                   else Throw (CcxtError ExchangeError feedback)) ;;
              let exact := Exceptions.exact (exceptions this) in
              if js_in_table (ToString message) exact
              then Throw (throw_new exact (ToString message) feedback)
              else
                let broad := Exceptions.broad (exceptions this) in
                broadKey <- findBroadlyMatchedKey broad message ;;
                match broadKey with
                | Some key => Throw (throw_new broad key feedback)
                | None => Throw (CcxtError ExchangeError feedback)
                end
          end
        else Return tt
    | None => Return tt
    end
  else Return tt.

End Methods.

(** ** A sample environment

    An implementation of the two interfaces, on which the methods can be
    run.  The built-ins follow the language definition (JSON texts, the
    rendering of numbers), over 8-bit characters.  The inherited helpers are
    not among the sources: each is given the plain reading of its name and
    of its use in [js/cpdax.js], for flat parameters; the keyed digest is a
    stand-in, whose result spells out the hash, the key and the payload it
    was asked for.  The general theorems do not depend on this module; the
    examples run in it. *)
Module Sample.

(** The exact value of a finite number. *)
Definition exact_value (x : float) : option Q :=
  match Prim2SF x with
  | S754_zero _ => Some 0%Q
  | S754_finite s m e =>
      Some ((if s then -1 else 1) * inject_Z (Zpos m) * Qpower 2 e)%Q
  | _ => None
  end.

Definition Qltb (a b : Q) : bool :=
  match Qcompare a b with Lt => true | _ => false end.

Definition Qeqb (a b : Q) : bool :=
  match Qcompare a b with Eq => true | _ => false end.

(** [floor (log_base v)] for [v > 0], by a short search upwards from
    [start <= floor (log_base v)]. *)
Fixpoint floor_log (base : Q) (v : Q) (start : Z) (fuel : nat) : Z :=
  match fuel with
  | O => start
  | S fuel' =>
      if Qltb v (Qpower base (start + 1)) then start
      else floor_log base v (start + 1) fuel'
  end.

Definition floor_log2 (v : Q) : Z :=
  floor_log 2 v (Z.log2 (Qnum v) - Z.log2 (Zpos (Qden v)) - 1) 4.

Definition floor_log10 (v : Q) : Z :=
  floor_log 10 v (floor_log2 v * 30103 / 100000 - 2) 8.

(** Nearest integer, ties to even. *)
Definition round_even (q : Q) : Z :=
  let f := Qfloor q in
  match Qcompare (q - inject_Z f) (1 # 2) with
  | Lt => f
  | Gt => (f + 1)%Z
  | Eq => if Z.even f then f else (f + 1)%Z
  end.

(** The number nearest to a positive rational (round to nearest, ties to
    even), as the language reads a decimal literal. *)
Definition nearest_float (d : Q) : float :=
  let e2 := floor_log2 d in
  let e := Z.max (e2 - 52) (-1074) in
  let m := round_even (d / Qpower 2 e) in
  let '(m, e) := if (m =? 2 ^ 53)%Z then (2 ^ 52, e + 1)%Z else (m, e) in
  if (1023 <? e + 52)%Z then infinity
  else match m with
       | Zpos p => SF2Prim (S754_finite false p e)
       | _ => 0%float
       end.

(** [x] is the number a decimal of value [d] is read as. *)
Definition reads_as (d : Q) (x : float) : bool :=
  PrimFloat.eqb (nearest_float d) x.

Definition decimal (z : Z) : string := NilZero.string_of_int (Z.to_int z).

Fixpoint zeros (n : nat) : string :=
  match n with
  | O => EmptyString
  | S n' => String "0" (zeros n')
  end.

(** The digits [s] and the exponent [e] of the shortest decimal
    [s * 10 ^ e] that reads back as [x], for a finite [x > 0] of value [v]
    with [10 ^ (n - 1) <= v < 10 ^ n]; [k] counts the digits tried. *)
Fixpoint shortest (x : float) (v : Q) (n : Z) (k : Z) (fuel : nat) : Z * Z :=
  let s := round_even (v * Qpower 10 (k - n)) in
  match fuel with
  | O => (s, n - k)%Z
  | S fuel' =>
      if reads_as (inject_Z s * Qpower 10 (n - k)) x then (s, n - k)%Z
      else shortest x v n (k + 1) fuel'
  end.

Fixpoint strip_zeros (s : Z) (e : Z) (fuel : nat) : Z * Z :=
  match fuel with
  | O => (s, e)
  | S fuel' =>
      if (s mod 10 =? 0)%Z then strip_zeros (s / 10) (e + 1) fuel' else (s, e)
  end.

(** [Number.prototype.toString] (radix 10). *)
Definition Number_toString (x : float) : string :=
  if PrimFloat.is_nan x then "NaN"
  else match exact_value (abs x) with
       | None => if PrimFloat.ltb x 0 then "-Infinity" else "Infinity"
       | Some v =>
           if Qeqb v 0 then "0"
           else
             let minus := if PrimFloat.ltb x 0 then "-" else EmptyString in
             let n0 := (floor_log10 v + 1)%Z in
             let '(s, e) := shortest (abs x) v n0 1 17 in
             let '(s, e) := strip_zeros s e 400 in
             let digits := decimal s in
             let k := Z.of_nat (String.length digits) in
             let n := (k + e)%Z in
             minus ++
             (if (k <=? n)%Z && (n <=? 21)%Z then
                digits ++ zeros (Z.to_nat (n - k))
              else if (0 <? n)%Z && (n <=? 21)%Z then
                substring 0 (Z.to_nat n) digits ++ "." ++
                substring (Z.to_nat n) (Z.to_nat (k - n)) digits
              else if (-6 <? n)%Z && (n <=? 0)%Z then
                "0." ++ zeros (Z.to_nat (- n)) ++ digits
              else
                let exponent :=
                  (if (0 <=? n - 1)%Z then "+" else "-") ++ decimal (Z.abs (n - 1)) in
                if (k =? 1)%Z then digits ++ "e" ++ exponent
                else substring 0 1 digits ++ "." ++
                     substring 1 (Z.to_nat (k - 1)) digits ++ "e" ++ exponent)
       end.

(** *** JSON texts *)

Definition code (c : ascii) : nat := nat_of_ascii c.

Definition is_digit (c : ascii) : bool :=
  (48 <=? code c)%nat && (code c <=? 57)%nat.

Definition is_space (c : ascii) : bool :=
  let n := code c in
  (n =? 32)%nat || (n =? 9)%nat || (n =? 10)%nat || (n =? 13)%nat.

Fixpoint skip_ws (s : string) : string :=
  match s with
  | String c rest => if is_space c then skip_ws rest else s
  | EmptyString => s
  end.

Definition hex_digit (c : ascii) : option nat :=
  let n := code c in
  if is_digit c then Some (n - 48)%nat
  else if (97 <=? n)%nat && (n <=? 102)%nat then Some (n - 87)%nat
  else if (65 <=? n)%nat && (n <=? 70)%nat then Some (n - 55)%nat
  else None.

(** The character an escape letter stands for. *)
Definition unescape (c : ascii) : option ascii :=
  let n := code c in
  if (n =? 34)%nat || (n =? 92)%nat || (n =? 47)%nat then Some c
  else if (n =? 98)%nat then Some (ascii_of_nat 8)
  else if (n =? 102)%nat then Some (ascii_of_nat 12)
  else if (n =? 110)%nat then Some (ascii_of_nat 10)
  else if (n =? 114)%nat then Some (ascii_of_nat 13)
  else if (n =? 116)%nat then Some (ascii_of_nat 9)
  else None.

Definition cons_char (c : ascii) (r : option (string * string))
  : option (string * string) :=
  match r with
  | Some (s, rest) => Some (String c s, rest)
  | None => None
  end.

(** The characters of a string literal, after its opening quote. *)
Fixpoint parse_chars (s : string) : option (string * string) :=
  match s with
  | EmptyString => None
  | String c rest =>
      if (code c =? 34)%nat then Some (EmptyString, rest)
      else if (code c =? 92)%nat then
        match rest with
        | String e rest' =>
            if (code e =? 117)%nat then
              match rest' with
              | String h1 (String h2 (String h3 (String h4 rest''))) =>
                  match hex_digit h1, hex_digit h2, hex_digit h3, hex_digit h4 with
                  | Some 0%nat, Some 0%nat, Some a, Some b =>
                      cons_char (ascii_of_nat (16 * a + b)) (parse_chars rest'')
                  | _, _, _, _ => None
                  end
              | _ => None
              end
            else
              match unescape e with
              | Some ch => cons_char ch (parse_chars rest')
              | None => None
              end
        | EmptyString => None
        end
      else if (code c <? 32)%nat then None
      else cons_char c (parse_chars rest)
  end.

(** A run of digits: its value, its length, and what follows. *)
Fixpoint parse_digits (s : string) (acc : Z) (len : nat) : Z * nat * string :=
  match s with
  | String c rest =>
      if is_digit c
      then parse_digits rest (10 * acc + Z.of_nat (code c - 48)) (S len)
      else (acc, len, s)
  | EmptyString => (acc, len, s)
  end.

Definition starts_with (n : nat) (s : string) : bool :=
  match s with
  | String c _ => (code c =? n)%nat
  | EmptyString => false
  end.

Definition tail (s : string) : string :=
  match s with
  | String _ rest => rest
  | EmptyString => EmptyString
  end.

(** A number literal: [-? int frac? exp?]. *)
Definition parse_number (s : string) : option (JsValue * string) :=
  let negative := starts_with 45 s in
  let s := if negative then tail s else s in
  let '(int, int_len, s) :=
    if starts_with 48 s then (0%Z, 1%nat, tail s) else parse_digits s 0 0 in
  if (int_len =? 0)%nat then None
  else
    let fraction :=
      if starts_with 46 s then
        let '(f, f_len, rest) := parse_digits (tail s) 0 0 in
        if (f_len =? 0)%nat then None else Some (f, f_len, rest)
      else Some (0%Z, 0%nat, s) in
    match fraction with
    | None => None
    | Some (frac, frac_len, s) =>
        let exponent :=
          if starts_with 101 s || starts_with 69 s then
            let s := tail s in
            let minus := starts_with 45 s in
            let s := if minus || starts_with 43 s then tail s else s in
            let '(e, e_len, rest) := parse_digits s 0 0 in
            if (e_len =? 0)%nat then None
            else Some ((if minus then - e else e)%Z, rest)
          else Some (0%Z, s) in
        match exponent with
        | None => None
        | Some (e, rest) =>
            let d :=
              (inject_Z (int * 10 ^ Z.of_nat frac_len + frac)
               * Qpower 10 (e - Z.of_nat frac_len))%Q in
            let x := if Qeqb d 0 then 0%float else nearest_float (Qred d) in
            Some (JNum (if negative then (- x)%float else x), rest)
        end
    end.

Fixpoint strip_prefix (p s : string) : option string :=
  match p, s with
  | EmptyString, _ => Some s
  | String a p', String b s' => if Ascii.eqb a b then strip_prefix p' s' else None
  | String _ _, EmptyString => None
  end.

(** [o[k] = v]: an assignment keeps the place of a key that is present. *)
Fixpoint set_field (k : string) (v : JsValue) (o : Obj) : Obj :=
  match o with
  | [] => [(k, v)]
  | (k', v') :: rest =>
      if String.eqb k k' then (k, v) :: rest else (k', v') :: set_field k v rest
  end.

(** A value, then what follows it.  [fuel] bounds the nesting and the
    number of members, and is never exhausted on [2 * length + 2]. *)
Fixpoint parse_value (fuel : nat) (s : string) : option (JsValue * string) :=
  match fuel with
  | O => None
  | S fuel' =>
      let s := skip_ws s in
      match s with
      | EmptyString => None
      | String c rest =>
          if (code c =? 123)%nat then
            let rest := skip_ws rest in
            if starts_with 125 rest then Some (JObj [], tail rest)
            else parse_members fuel' rest []
          else if (code c =? 91)%nat then
            let rest := skip_ws rest in
            if starts_with 93 rest then Some (JArr [], tail rest)
            else parse_items fuel' rest []
          else if (code c =? 34)%nat then
            match parse_chars rest with
            | Some (str, rest') => Some (JStr str, rest')
            | None => None
            end
          else if (code c =? 45)%nat || is_digit c then parse_number s
          else
            match strip_prefix "true" s, strip_prefix "false" s, strip_prefix "null" s with
            | Some rest', _, _ => Some (JBool true, rest')
            | _, Some rest', _ => Some (JBool false, rest')
            | _, _, Some rest' => Some (JNull, rest')
            | _, _, _ => None
            end
      end
  end
with parse_members (fuel : nat) (s : string) (acc : Obj)
  : option (JsValue * string) :=
  match fuel with
  | O => None
  | S fuel' =>
      let s := skip_ws s in
      if starts_with 34 s then
        match parse_chars (tail s) with
        | Some (key, s) =>
            let s := skip_ws s in
            if starts_with 58 s then
              match parse_value fuel' (tail s) with
              | Some (v, s) =>
                  let acc := set_field key v acc in
                  let s := skip_ws s in
                  if starts_with 44 s then parse_members fuel' (tail s) acc
                  else if starts_with 125 s then Some (JObj acc, tail s)
                  else None
              | None => None
              end
            else None
        | None => None
        end
      else None
  end
with parse_items (fuel : nat) (s : string) (acc : list JsValue)
  : option (JsValue * string) :=
  match fuel with
  | O => None
  | S fuel' =>
      match parse_value fuel' s with
      | Some (v, s) =>
          let acc := (acc ++ [v])%list in
          let s := skip_ws s in
          if starts_with 44 s then parse_items fuel' (tail s) acc
          else if starts_with 93 s then Some (JArr acc, tail s)
          else None
      | None => None
      end
  end.

(** [JSON.parse (text)]. *)
Definition JSON_parse (text : string) : option JsValue :=
  match parse_value (2 * String.length text + 2) text with
  | Some (v, rest) =>
      match skip_ws rest with
      | EmptyString => Some v
      | String _ _ => None
      end
  | None => None
  end.

Definition hex_char (n : nat) : ascii :=
  if (n <? 10)%nat then ascii_of_nat (48 + n) else ascii_of_nat (87 + n).

Definition backslash : string := String (ascii_of_nat 92) EmptyString.

(** The characters of a string literal, escaped. *)
Fixpoint escape (s : string) : string :=
  match s with
  | EmptyString => EmptyString
  | String c rest =>
      let n := code c in
      (if (n =? 34)%nat || (n =? 92)%nat then backslash ++ String c EmptyString
       else if (n =? 8)%nat then backslash ++ "b"
       else if (n =? 9)%nat then backslash ++ "t"
       else if (n =? 10)%nat then backslash ++ "n"
       else if (n =? 12)%nat then backslash ++ "f"
       else if (n =? 13)%nat then backslash ++ "r"
       else if (n <? 32)%nat then
         backslash ++ "u00" ++
         String (hex_char (n / 16)) (String (hex_char (n mod 16)) EmptyString)
       else String c EmptyString) ++ escape rest
  end.

Definition render_number (x : float) : string :=
  if PrimFloat.is_nan x || PrimFloat.is_infinity x then "null"
  else Number_toString x.

(** [JSON.stringify (v)], [None] for [undefined]. *)
Fixpoint stringify (v : JsValue) : option string :=
  match v with
  | JUndefined => None
  | JNull => Some "null"
  | JBool true => Some "true"
  | JBool false => Some "false"
  | JNum x => Some (render_number x)
  | JStr s => Some (quoted (escape s))
  | JArr items =>
      let piece (x : JsValue) : string :=
        match stringify x with
        | Some t => t
        | None => "null"
        end in
      Some ("[" ++
            (fix join (l : list JsValue) : string :=
               match l with
               | [] => EmptyString
               | [x] => piece x
               | x :: rest => piece x ++ "," ++ join rest
               end) items ++ "]")
  | JObj fields =>
      Some ("{" ++
            (fix join (l : Obj) (first : bool) : string :=
               match l with
               | [] => EmptyString
               | (k, x) :: rest =>
                   match stringify x with
                   | Some t =>
                       (if first then EmptyString else ",") ++
                       quoted (escape k) ++ ":" ++ t ++ join rest false
                   | None => join rest first
                   end
               end) fields true ++ "}")
  end.

Definition JSON_stringify (v : JsValue) : string :=
  match stringify v with
  | Some t => t
  | None => "undefined"
  end.

(** The text of a built-in function, as the common engines print it. *)
Definition Function_toString (name : string) : string :=
  "function " ++ name ++ "() { [native code] }".

#[export] Instance runtime : JsRuntime :=
  Build_JsRuntime JSON_parse JSON_stringify Number_toString Function_toString.


(** *** Inherited helpers *)

(** [s.replace (pattern, replacement)] for a string pattern: its first
    occurrence. *)
Fixpoint replace_first (pattern replacement s : string) : string :=
  match strip_prefix pattern s with
  | Some rest => replacement ++ rest
  | None =>
      match s with
      | String c s' => String c (replace_first pattern replacement s')
      | EmptyString => EmptyString
      end
  end.

Definition implodeParams (path : string) (params : Obj) : string :=
  fold_left
    (fun str kv => replace_first ("{" ++ fst kv ++ "}") (ToString (snd kv)) str)
    params path.

Definition is_word (c : ascii) : bool :=
  let n := code c in
  is_digit c || ((65 <=? n)%nat && (n <=? 90)%nat)
  || ((97 <=? n)%nat && (n <=? 122)%nat) || (n =? 95)%nat || (n =? 45)%nat.

Fixpoint span_word (s : string) : string * string :=
  match s with
  | String c rest =>
      if is_word c then let '(w, r) := span_word rest in (String c w, r)
      else (EmptyString, s)
  | EmptyString => (EmptyString, s)
  end.

(** The names between braces, left to right. *)
Fixpoint extractParams_from (fuel : nat) (s : string) : list string :=
  match fuel, s with
  | S fuel', String c rest =>
      if (code c =? 123)%nat then
        let '(w, r) := span_word rest in
        if negb (String.eqb w EmptyString) && starts_with 125 r
        then w :: extractParams_from fuel' (tail r)
        else extractParams_from fuel' rest
      else extractParams_from fuel' rest
  | _, _ => []
  end.

Definition extractParams (path : string) : list string :=
  extractParams_from (String.length path) path.

Definition omit (params : Obj) (names : list string) : Obj :=
  filter (fun kv => negb (existsb (String.eqb (fst kv)) names)) params.

Definition extend (a b : Obj) : Obj :=
  fold_left (fun acc kv => set_field (fst kv) (snd kv) acc) b a.

Definition unreserved (c : ascii) : bool :=
  let n := code c in
  is_word c || (n =? 46)%nat || (n =? 33)%nat || (n =? 126)%nat
  || (n =? 42)%nat || (n =? 39)%nat || (n =? 40)%nat || (n =? 41)%nat.

Definition HEX_char (n : nat) : ascii :=
  if (n <? 10)%nat then ascii_of_nat (48 + n) else ascii_of_nat (55 + n).

(** [encodeURIComponent (s)]. *)
Fixpoint encodeURIComponent (s : string) : string :=
  match s with
  | EmptyString => EmptyString
  | String c rest =>
      (if unreserved c then String c EmptyString
       else String "%" (String (HEX_char (code c / 16))
                          (String (HEX_char (code c mod 16)) EmptyString)))
      ++ encodeURIComponent rest
  end.

(** One [key=value] pair per parameter that is not [undefined]. *)
Definition urlencode (query : Obj) : string :=
  let pairs :=
    flat_map
      (fun kv =>
         match snd kv with
         | JUndefined => []
         | JNull => [encodeURIComponent (fst kv) ++ "="]
         | v => [encodeURIComponent (fst kv) ++ "=" ++ encodeURIComponent (ToString v)]
         end) query in
  String.concat "&" pairs.

(** The stand-in for the keyed digest. *)
Definition hmac (payload key : JsValue) (hash : string) : Outcome string :=
  match payload, key with
  | JStr p, JStr k => Return (hash ++ "(" ++ k ++ "," ++ p ++ ")")
  | _, _ => Throw TypeError
  end.

Definition findBroadlyMatchedKey (broad : list (string * ErrorKind))
    (message : JsValue) : Outcome (option string) :=
  match message with
  | JStr m => Return (broadlyMatchedKey broad m)
  | _ => Throw TypeError
  end.

Definition commonCurrencies : list (string * string) :=
  [ ("XBT", "BTC"); ("BCC", "BCH"); ("DRK", "DASH") ].

Definition commonCurrencyCode (currency : JsValue) : JsValue :=
  match currency with
  | JStr s =>
      match lookup s commonCurrencies with
      | Some c => JStr c
      | None => currency
      end
  | _ => currency
  end.

Definition finite (x : float) : option float :=
  if PrimFloat.is_nan x || PrimFloat.is_infinity x then None else Some x.

Definition safeFloat (o : JsValue) (key : string) : option float :=
  match o with
  | JObj fields =>
      match lookup key fields with
      | Some (JNum x) => finite x
      | Some (JStr s) =>
          match parse_number (skip_ws s) with
          | Some (JNum x, _) => finite x
          | _ => None
          end
      | _ => None
      end
  | _ => None
  end.

#[export] Instance base : ExchangeBase :=
  Build_ExchangeBase implodeParams extractParams omit extend urlencode hmac
    JSON_stringify findBroadlyMatchedKey commonCurrencyCode safeFloat.

(** *** Sample responses *)

(** An object with one string member. *)
Definition object1 (key value : string) : string :=
  "{" ++ quoted key ++ ":" ++ quoted value ++ "}".

Definition nonce_body : string :=
  Eval cbv in object1 "message" "Nonce is too small.".

Definition funds_body : string :=
  Eval cbv in object1 "message" "Invalid order: not enough exchange balance for BTC".

Definition size_body : string :=
  Eval cbv in object1 "error" "Invalid order: minimum size for BTC is 0.001".

Definition shapeless_body : string :=
  Eval cbv in object1 "status" "error".

Definition order_body : string :=
  Eval cbv in object1 "message" "Invalid order".

Definition rejected_body : string :=
  Eval cbv in object1 "message" "Invalid order rejected".

(** Tables in which one text is a key of both. *)
Definition overlapping : Cpdax :=
  with_exceptions describe {|
    Exceptions.exact := [ ("Invalid order", OrderNotFound) ];
    Exceptions.broad := [ ("Invalid", PermissionDenied);
                          ("Invalid order", InvalidOrder) ]
  |}.

Definition gateway_body : string :=
  "<html><body>502 Bad Gateway</body></html>".

Definition truncated_body : string :=
  Eval cbv in "{" ++ quoted "message" ++ ":".

Definition btc_krw : JsValue :=
  JObj [ ("product_id", JStr "BTC-KRW");
         ("unit_size", JNum 0.0001);
         ("quote_increment", JNum 1);
         ("min_size", JNum 0.001);
         ("max_size", JNum 100);
         ("status", JStr "offline");
         ("active", JBool false) ].

Definition eth_krw_unsized : JsValue :=
  JObj [ ("product_id", JStr "ETH-KRW");
         ("unit_size", JNum 0.001);
         ("quote_increment", JNum 1) ].

Definition unsplit : JsValue :=
  JObj [ ("product_id", JStr "INVALID") ].

End Sample.

(** The methods of the instance, run in the sample environment. *)
Module Run.

(** [handleErrors] of the instance [describe ()] gives, for a status and a
    body (the other arguments are not read). *)
Definition classify (code : Z) (body : string) : Outcome unit :=
  handleErrors (RT := Sample.runtime) (Base := Sample.base)
    describe code "" "https://www.cpdax.com/v1/orders" "POST" JUndefined body.

(** [sign] of an instance, at the nonce 1530000000. *)
Definition signed (this : Cpdax) (path api method : string) (params : Obj)
  : Outcome Request.t :=
  sign (RT := Sample.runtime) (Base := Sample.base)
    this 1530000000 path api method params JUndefined JUndefined.

Definition markets (response : list JsValue) : Outcome (list Market.t) :=
  fetchMarkets (RT := Sample.runtime) (Base := Sample.base) response.

End Run.

(** * Currencies and orders *)

(** ** More of the language *)

(** [Boolean (v)]: what a condition and [&&] test. *)
Definition truthy (v : JsValue) : bool :=
  match v with
  | JUndefined | JNull => false
  | JBool b => b
  | JNum x => negb (PrimFloat.is_zero x || PrimFloat.is_nan x)
  | JStr s => negb (String.eqb s EmptyString)
  | JArr _ | JObj _ => true
  end.

(** The characters of [s] are ASCII.  On such a string [toUpperCase] is
    what the language computes; beyond ASCII the language maps every cased
    letter, which [toUpperCase] does not follow. *)
Definition ascii_only (s : string) : bool :=
  forallb (fun c => (nat_of_ascii c <? 128)%nat) (list_ascii_of_string s).

(** [v.toUpperCase ()] as a method call: only strings have the method. *)
Definition js_toUpperCase (v : JsValue) : Outcome string :=
  match v with
  | JStr s => Return (toUpperCase s)
  | _ => Throw TypeError
  end.

(** [tbl[k] = v]: a key that is present keeps its place. *)
Fixpoint assign {A : Type} (k : string) (v : A) (tbl : list (string * A))
  : list (string * A) :=
  match tbl with
  | [] => [(k, v)]
  | (k', v') :: rest =>
      if String.eqb k k' then (k, v) :: rest else (k', v') :: assign k v rest
  end.

(** Two more methods inherited from [base/Exchange.js]. *)
Class ExchangeSafe : Type := {
  (** [this.safeValue (object, key)] *)
  safeValue : JsValue -> string -> JsValue;
  (** [this.safeInteger (object, key)] *)
  safeInteger : JsValue -> string -> JsValue
}.

Module CurrencyLimits.
Record t : Type := {
  amount : Limit.t;
  price : Limit.t;
  cost : Limit.t;
  deposit : Limit.t;
  withdraw : Limit.t
}.
End CurrencyLimits.

Module Currency.
(** A value of the object [fetchCurrencies] returns. *)
Record t : Type := {
  id : JsValue;
  code : JsValue;
  type : string;
  name : JsValue;
  active : JsValue;
  fee : JsValue;
  precision : JsValue;
  limits : CurrencyLimits.t;
  info : JsValue
}.
End Currency.

(** ** [fetchCurrencies] *)

Section Currencies.
Context {RT : JsRuntime} {Base : ExchangeBase} {Safe : ExchangeSafe}.

(** The body of the loop of [fetchCurrencies]: the key and the value of
    the assignment [result[code] = { ... }]. *)
Definition fetchCurrencies_entry (currency : JsValue)
  : Outcome (JsValue * Currency.t) :=
  let id := safeValue currency "name" in
  let precision := safeInteger currency "withdraw_status" in
  upper <- js_toUpperCase id ;;
  let code := commonCurrencyCode (JStr upper) in
  deposit_status <- js_get currency "deposit_status" ;;
  active <-
    (if truthy deposit_status then js_get currency "withdraw_status"
     else Return deposit_status) ;;
  name <- js_get currency "name" ;;
  let undefined := {| Limit.min := None; Limit.max := None |} in
  Return (code, {|
    Currency.id := id;
    Currency.code := code;
    Currency.type := "crypto";
    Currency.name := name;
    Currency.active := active;
    Currency.fee := JUndefined;
    Currency.precision := JUndefined;
    Currency.limits := {|
      CurrencyLimits.amount := undefined;
      CurrencyLimits.price := undefined;
      CurrencyLimits.cost := undefined;
      CurrencyLimits.deposit := undefined;
      CurrencyLimits.withdraw := undefined
    |};
    Currency.info := currency
  |}).

(** The loop: each record is assigned under the text of its code. *)
Fixpoint fetchCurrencies_loop (response : list JsValue)
    (result : list (string * Currency.t))
  : Outcome (list (string * Currency.t)) :=
  match response with
  | [] => Return result
  | currency :: rest =>
      assignment <- fetchCurrencies_entry currency ;;
      fetchCurrencies_loop rest
        (assign (ToString (fst assignment)) (snd assignment) result)
  end.

(** [fetchCurrencies (params)], on the response of [publicGetCurrencies]:
    the own properties of [result], looked up by key. *)
Definition fetchCurrencies (response : list JsValue)
  : Outcome (list (string * Currency.t)) :=
  fetchCurrencies_loop response [].

End Currencies.

(** ** [cancelOrder], [cancelOrders], [createOrder] *)

(** The generated methods these three call. *)
Inductive Endpoint : Type :=
| privateDeleteOrdersSymbolId
| privateDeleteOrdersSymbol
| privatePostOrders.

(** An asynchronous method: it returns, or awaits a request and goes on
    with the response. *)
Inductive Script (A : Type) : Type :=
| Done (value : A)
| Await (endpoint : Endpoint) (params : JsValue) (next : JsValue -> Script A).
Arguments Done {A} value.
Arguments Await {A} endpoint params next.

(** A run of a method against a venue: the call [endpoint (params)]
    resolves to a response or raises, as [venue endpoint params] says, and
    an exception, which none of the three methods catches, ends the run.
    The result is every request the method sends, in order, and what the
    method resolves to or raises. *)
Fixpoint run {A : Type} (venue : Endpoint -> JsValue -> Outcome JsValue)
    (script : Script A) : list (Endpoint * JsValue) * Outcome A :=
  match script with
  | Done value => ([], Return value)
  | Await endpoint params next =>
      match venue endpoint params with
      | Return response =>
          let '(sent, outcome) := run venue (next response) in
          ((endpoint, params) :: sent, outcome)
      | Throw e => ([ (endpoint, params) ], Throw e)
      end
  end.

Definition cancelOrder (id symbol : JsValue) (params : Obj) : Script JsValue :=
  if negb (truthy id) then Done JUndefined
  else
    Await privateDeleteOrdersSymbolId (JObj [ ("id", id); ("symbol", symbol) ])
          (fun response => Done response).

Definition cancelOrders (symbol : JsValue) (params : Obj) : Script JsValue :=
  Await privateDeleteOrdersSymbol (JObj [ ("symbol", symbol) ])
        (fun response => Done response).

Definition createOrder (params : Obj) : Script JsValue :=
  Await privatePostOrders (JObj params) (fun response => Done response).

(** A sample of the two safe readers, for the examples: [safeValue] gives
    the property unless it is [null] or missing, [safeInteger] the property
    when it is a number. *)
Module SampleSafe.

Definition safeValue (o : JsValue) (key : string) : JsValue :=
  match o with
  | JObj fields =>
      match lookup key fields with
      | Some JNull | None => JUndefined
      | Some v => v
      end
  | _ => JUndefined
  end.

Definition safeInteger (o : JsValue) (key : string) : JsValue :=
  match o with
  | JObj fields =>
      match lookup key fields with
      | Some (JNum x) => JNum x
      | _ => JUndefined
      end
  | _ => JUndefined
  end.

#[export] Instance safe : ExchangeSafe := Build_ExchangeSafe safeValue safeInteger.

Definition eth : JsValue :=
  JObj [ ("name", JStr "eth"); ("deposit_status", JBool true);
         ("withdraw_status", JBool false) ].

Definition ETH : JsValue :=
  JObj [ ("name", JStr "ETH"); ("deposit_status", JNum 1);
         ("withdraw_status", JStr "enabled") ].

Definition btc : JsValue :=
  JObj [ ("name", JStr "btc"); ("deposit_status", JBool true);
         ("withdraw_status", JBool true) ].

Definition nameless : JsValue :=
  JObj [ ("deposit_status", JBool true); ("withdraw_status", JBool true) ].

Definition toString_body : string :=
  Eval cbv in Sample.object1 "message" "toString".

Definition anonymous_market : JsValue :=
  JObj [ ("unit_size", JNum 0.001); ("min_size", JNum 1) ].

Definition three_part : JsValue :=
  JObj [ ("product_id", JStr "BTC-KRW-PERP") ].

Definition currencies (response : list JsValue)
  : Outcome (list (string * Currency.t)) :=
  fetchCurrencies (RT := Sample.runtime) (Base := Sample.base) (Safe := safe)
    response.

End SampleSafe.

(** * Properties *)

(** ** Occurrence of a key in a message *)

Lemma prefix_append (key post : string) : prefix key (key ++ post) = true.
Proof.
  induction key as [| c key IH]; simpl.
  - now destruct post.
  - destruct (ascii_dec c c) as [_ | ne]; [exact IH | now destruct ne].
Qed.

Lemma prefix_split (key s : string) :
  prefix key s = true -> exists post, s = key ++ post.
Proof.
  revert s. induction key as [| c key IH]; intros s H.
  - now exists s.
  - destruct s as [| d s]; simpl in H; [discriminate |].
    destruct (ascii_dec c d) as [-> | _]; [| discriminate].
    destruct (IH s H) as [post ->]. now exists post.
Qed.

Lemma index_Substring (key s : string) (n : nat) :
  index 0 key s = Some n -> Substring key s.
Proof.
  revert n. induction s as [| c s IH]; intros n H.
  - destruct key; simpl in H; [| discriminate H].
    now exists EmptyString, EmptyString.
  - cbn [index] in H. destruct (prefix key (String c s)) eqn:P.
    + destruct (prefix_split _ _ P) as [post E].
      exists EmptyString, post. exact E.
    + destruct (index 0 key s) as [m |] eqn:I; [| discriminate H].
      destruct (IH m eq_refl) as (pre & post & ->).
      now exists (String c pre), post.
Qed.

Lemma Substring_index (key s : string) :
  Substring key s -> index 0 key s <> None.
Proof.
  intros (pre & post & ->). induction pre as [| c pre IH].
  - cbn [append]. pose proof (prefix_append key post) as P.
    destruct (key ++ post) as [| d t] eqn:E.
    + destruct key; [discriminate | discriminate E].
    + simpl. simpl in P. rewrite P. discriminate.
  - cbn [append index].
    destruct (prefix key (String c (pre ++ key ++ post))); [discriminate |].
    destruct (index 0 key (pre ++ key ++ post)); [discriminate | contradiction].
Qed.

(** [includes] decides [Substring]. *)
Lemma includes_Substring (key s : string) :
  includes key s = true <-> Substring key s.
Proof.
  unfold includes. split.
  - destruct (index 0 key s) as [n |] eqn:I; [| discriminate].
    intros _. exact (index_Substring _ _ _ I).
  - intros H. apply Substring_index in H.
    now destruct (index 0 key s).
Qed.

Lemma includes_false (key s : string) :
  includes key s = false <-> ~ Substring key s.
Proof.
  rewrite <- includes_Substring. now destruct (includes key s).
Qed.

(** ** Splitting an id *)

(** One segment without a hyphen; empty segments are kept; an id may have
    more than two. *)
Example split_segments :
  split "-" "BTC-KRW" = [ "BTC"; "KRW" ] /\
  split "-" "INVALID" = [ "INVALID" ] /\
  split "-" "-KRW" = [ EmptyString; "KRW" ] /\
  split "-" "A-B-C" = [ "A"; "B"; "C" ] /\
  split "-" EmptyString = [ EmptyString ].
Proof. repeat split. Qed.

Lemma split_nonempty (sep : ascii) (s : string) : split sep s <> [].
Proof.
  destruct s as [| c s]; cbn [split]; [discriminate |].
  destruct (Ascii.eqb c sep); [discriminate |].
  destruct (split sep s); discriminate.
Qed.

(** The first segment always exists: [baseId] is a string. *)
Lemma item_first (sep : ascii) (s : string) :
  exists segment, item (split sep s) 0 = JStr segment.
Proof.
  pose proof (split_nonempty sep s) as H. unfold item.
  destruct (split sep s) as [| segment segments]; [contradiction |].
  now exists segment.
Qed.

(** ** The error classifier *)

Lemma lookup_app_skip {A : Type} (k : string) (before : list (string * A))
    (rest : list (string * A)) :
  Forall (fun entry => fst entry <> k) before ->
  lookup k (before ++ rest)%list = lookup k rest.
Proof.
  induction 1 as [| [k' v] before ne _ IH]; [reflexivity |].
  cbn [app lookup]. simpl in ne.
  destruct (String.eqb_spec k k') as [-> | _]; [contradiction | exact IH].
Qed.

(** The scan returns the entry that the first occurring key labels. *)
Lemma broadlyMatchedKey_first (broad before after : list (string * ErrorKind))
    (key : string) (kind : ErrorKind) (message : string) :
  broad = (before ++ (key, kind) :: after)%list ->
  Forall (fun entry => ~ Substring (fst entry) message) before ->
  Substring key message ->
  broadlyMatchedKey broad message = Some key /\ lookup key broad = Some kind.
Proof.
  intros -> Hbefore Hkey. split.
  - induction Hbefore as [| [k v] before no _ IH]; cbn [app broadlyMatchedKey].
    + now rewrite (proj2 (includes_Substring key message) Hkey).
    + simpl in no. now rewrite (proj2 (includes_false k message) no).
  - rewrite lookup_app_skip.
    + cbn [lookup]. now rewrite String.eqb_refl.
    + eapply Forall_impl; [| exact Hbefore].
      intros [k v] no E. simpl in no, E. subst k. contradiction.
Qed.

(** A broad table of which no key occurs in an inherited property name:
    it is enough to scan the names. *)
Lemma inherited_clear (broad : list (string * ErrorKind)) :
  forallb (fun name =>
             match broadlyMatchedKey broad name with
             | None => true
             | Some _ => false
             end) Object_prototype = true ->
  forall name, inherited name = true -> broadlyMatchedKey broad name = None.
Proof.
  intros Hall name Hname. unfold inherited in Hname.
  rewrite existsb_exists in Hname. destruct Hname as (name' & Hin & E).
  apply String.eqb_eq in E. subst name'.
  rewrite forallb_forall in Hall. specialize (Hall name Hin).
  now destruct (broadlyMatchedKey broad name).
Qed.

(** No property that the tables inherit contains a key of the broad
    table of [describe ()]. *)
Lemma inherited_not_broad (message : string) :
  inherited message = true ->
  broadlyMatchedKey (Exceptions.broad (exceptions describe)) message = None.
Proof. apply inherited_clear. vm_compute. reflexivity. Qed.

Section Classifier.
Context {RT : JsRuntime} {Base : ExchangeBase}.
Variable this : Cpdax.
Variables (code : Z) (reason url method : string) (headers : JsValue).

(** Whatever the body, a status below 400 is not an error. *)
Lemma handleErrors_below_400 (body : string) :
  (code < 400)%Z ->
  handleErrors this code reason url method headers body = Return tt.
Proof.
  intros Hcode. unfold handleErrors.
  destruct (String.length body <? 2)%nat; [reflexivity |].
  destruct (Z.leb_spec 400 code); [lia | reflexivity].
Qed.

(** The path through [handleErrors] for an error status and a body that
    parses to an object. *)
Lemma handleErrors_object (body : string) (fields : Obj) :
  (2 <= String.length body)%nat ->
  (400 <= code)%Z ->
  first_char body = Some "{"%char ->
  JSON_parse body = Some (JObj fields) ->
  handleErrors this code reason url method headers body =
    (let feedback := id this ++ " " ++ json (JObj fields) in
     message <-
       (if js_in_table "message" fields
        then js_get (JObj fields) "message"
        else if js_in_table "error" fields
             then js_get (JObj fields) "error"
             else Throw (CcxtError ExchangeError feedback)) ;;
     let exact := Exceptions.exact (exceptions this) in
     if js_in_table (ToString message) exact
     then Throw (throw_new exact (ToString message) feedback)
     else
       let broad := Exceptions.broad (exceptions this) in
       broadKey <- findBroadlyMatchedKey broad message ;;
       match broadKey with
       | Some key => Throw (throw_new broad key feedback)
       | None => Throw (CcxtError ExchangeError feedback)
       end).
Proof.
  intros Hlen Hcode Hfirst Hparse. unfold handleErrors.
  destruct (Nat.ltb_spec (String.length body) 2); [lia |].
  destruct (Z.leb_spec 400 code); [| lia].
  rewrite Hfirst, Hparse. cbn [Ascii.eqb Bool.eqb js_in bind].
  now destruct (js_in_table "message" fields).
Qed.

(** The message the classifier reads off an object: its [message], or else
    its [error]. *)
Lemma handleErrors_message (fields : Obj) (message : JsValue) (feedback : string) :
  lookup "message" fields = Some message \/
  (lookup "message" fields = None /\ lookup "error" fields = Some message) ->
  (if js_in_table "message" fields
   then js_get (JObj fields) "message"
   else if js_in_table "error" fields
        then js_get (JObj fields) "error"
        else Throw (CcxtError ExchangeError feedback)) = Return message.
Proof.
  unfold js_in_table, js_get.
  intros [-> | [-> ->]]; reflexivity.
Qed.

(** C8.  For every response body of length at least 2, [handleErrors] with
    a status code below 400 returns without a value and raises nothing,
    whatever the body is. *)
Theorem handleErrors_success_below_400 (body : string) :
  (2 <= String.length body)%nat ->
  (code < 400)%Z ->
  handleErrors this code reason url method headers body = Return tt.
Proof.
  intros _. apply handleErrors_below_400.
Qed.

(** C2, as the code has it.  For a status of 400 or more and a body of
    length at least 2: when the first character of the body is not an
    opening brace, [handleErrors] returns without raising, and the body is
    not parsed; the [ExchangeError] for a malformed response is raised when
    the body parses to an object that has neither [message] nor [error],
    and its text is the exchange id, a space and the re-serialised
    object. *)
Theorem handleErrors_unrecognized_body (body : string) :
  (2 <= String.length body)%nat ->
  (400 <= code)%Z ->
  (first_char body <> Some "{"%char ->
   handleErrors this code reason url method headers body = Return tt) /\
  (forall fields : Obj,
     first_char body = Some "{"%char ->
     JSON_parse body = Some (JObj fields) ->
     lookup "message" fields = None ->
     lookup "error" fields = None ->
     handleErrors this code reason url method headers body =
       Throw (CcxtError ExchangeError (id this ++ " " ++ json (JObj fields)))).
Proof.
  intros Hlen Hcode. split.
  - intros Hfirst. unfold handleErrors.
    destruct (Nat.ltb_spec (String.length body) 2); [reflexivity |].
    destruct (Z.leb_spec 400 code); [| reflexivity].
    destruct (first_char body) as [c |]; [| reflexivity].
    destruct (Ascii.eqb_spec c "{"%char) as [-> | _]; [| reflexivity].
    now destruct Hfirst.
  - intros fields Hfirst Hparse Hmessage Herror.
    rewrite (handleErrors_object _ _ Hlen Hcode Hfirst Hparse).
    unfold js_in_table. rewrite Hmessage, Herror. reflexivity.
Qed.

(** A body that opens a brace and is no JSON text: the parser's exception
    leaves the method. *)
Lemma handleErrors_unparsed_object (body : string) :
  (2 <= String.length body)%nat ->
  (400 <= code)%Z ->
  first_char body = Some "{"%char ->
  JSON_parse body = None ->
  handleErrors this code reason url method headers body = Throw SyntaxError.
Proof.
  intros Hlen Hcode Hfirst Hparse. unfold handleErrors.
  destruct (Nat.ltb_spec (String.length body) 2); [lia |].
  destruct (Z.leb_spec 400 code); [| lia].
  now rewrite Hfirst, Hparse.
Qed.

(** Past the reading of the message, [handleErrors] is its two lookups. *)
Lemma handleErrors_lookups (body : string) (fields : Obj) (message : string) :
  (2 <= String.length body)%nat ->
  (400 <= code)%Z ->
  first_char body = Some "{"%char ->
  JSON_parse body = Some (JObj fields) ->
  lookup "message" fields = Some (JStr message) \/
  (lookup "message" fields = None /\ lookup "error" fields = Some (JStr message)) ->
  let exact := Exceptions.exact (exceptions this) in
  let broad := Exceptions.broad (exceptions this) in
  let feedback := id this ++ " " ++ json (JObj fields) in
  handleErrors this code reason url method headers body =
    if js_in_table message exact
    then Throw (throw_new exact message feedback)
    else
      broadKey <- findBroadlyMatchedKey broad (JStr message) ;;
      match broadKey with
      | Some key => Throw (throw_new broad key feedback)
      | None => Throw (CcxtError ExchangeError feedback)
      end.
Proof.
  intros Hlen Hcode Hfirst Hparse Hmessage exact broad feedback.
  rewrite (handleErrors_object _ _ Hlen Hcode Hfirst Hparse).
  cbv zeta. rewrite (handleErrors_message _ _ _ Hmessage). reflexivity.
Qed.

(** C1.  For an error status (400 or more) and a body that parses to an
    object whose message (its [message], or else its [error]) is a string,
    and for any two tables the instance holds.  The exact table is consulted
    first: a message that is one of its keys raises the error of that key,
    whatever the broad table holds and whatever the scan of it would find.
    A message that is no key of the exact table raises the error of the
    first key of the broad table, in declaration order, that occurs in the
    message; this second part is for an inherited scan that finds what the
    spec says it finds in this table for this message, and for tables in
    which no inherited property name contains a broad key, as is the case of
    the tables of [describe ()]. *)
Theorem handleErrors_exact_before_broad (body : string) (fields : Obj)
    (message : string) :
  (2 <= String.length body)%nat ->
  (400 <= code)%Z ->
  first_char body = Some "{"%char ->
  JSON_parse body = Some (JObj fields) ->
  lookup "message" fields = Some (JStr message) \/
  (lookup "message" fields = None /\ lookup "error" fields = Some (JStr message)) ->
  let exact := Exceptions.exact (exceptions this) in
  let broad := Exceptions.broad (exceptions this) in
  let feedback := id this ++ " " ++ json (JObj fields) in
  let outcome := handleErrors this code reason url method headers body in
  (forall kind, lookup message exact = Some kind ->
     outcome = Throw (CcxtError kind feedback)) /\
  (lookup message exact = None ->
   (forall name, inherited name = true -> broadlyMatchedKey broad name = None) ->
   findBroadlyMatchedKey broad (JStr message) =
     Return (broadlyMatchedKey broad message) ->
   forall before key kind after,
     broad = (before ++ (key, kind) :: after)%list ->
     Forall (fun entry => ~ Substring (fst entry) message) before ->
     Substring key message ->
     outcome = Throw (CcxtError kind feedback)).
Proof.
  intros Hlen Hcode Hfirst Hparse Hmessage exact broad feedback outcome.
  pose proof (handleErrors_lookups body fields message
                Hlen Hcode Hfirst Hparse Hmessage) as Hpath.
  cbv zeta in Hpath. fold exact broad feedback outcome in Hpath.
  split.
  - intros kind Hexact. rewrite Hpath.
    unfold js_in_table, throw_new. now rewrite Hexact.
  - intros Hexact Hclear Hscan before key kind after Hbroad Hbefore Hkey.
    destruct (broadlyMatchedKey_first _ _ _ _ _ _ Hbroad Hbefore Hkey)
      as [Hfound Hkind].
    assert (Hown : js_in_table message exact = false).
    { unfold js_in_table. rewrite Hexact.
      destruct (inherited message) eqn:Hinh; [| reflexivity].
      apply Hclear in Hinh. congruence. }
    rewrite Hpath, Hown, Hscan, Hfound. cbn [bind].
    unfold throw_new. now rewrite Hkind.
Qed.

End Classifier.

(** ** Market normalisation *)

Section Normalizer.
Context {RT : JsRuntime} {Base : ExchangeBase}.

(** Once a property of [market] has been read, reading another succeeds. *)
Lemma js_get_again (market : JsValue) (k k' : string) (v : JsValue) :
  js_get market k = Return v -> exists v', js_get market k' = Return v'.
Proof.
  destruct market; cbn [js_get]; intros H; try discriminate H; eauto.
Qed.

Lemma fetchMarkets_entry_string (market : JsValue) (s : string) :
  js_get market "product_id" = Return (JStr s) ->
  exists quote_increment unit_size,
    fetchMarkets_entry market = Return (entry_of market s quote_increment unit_size).
Proof.
  intros Hid.
  destruct (js_get_again market _ "quote_increment" _ Hid) as [qi Hqi].
  destruct (js_get_again market _ "unit_size" _ Hid) as [us Hus].
  exists qi, us. unfold fetchMarkets_entry.
  rewrite Hid. cbn [bind js_split]. rewrite Hqi, Hus. reflexivity.
Qed.

(** The loop body raises nothing but the runtime's [TypeError], and a
    record it accepts has a string for [product_id]. *)
Lemma fetchMarkets_entry_cases (market : JsValue) :
  fetchMarkets_entry market = Throw TypeError \/
  exists s quote_increment unit_size,
    js_get market "product_id" = Return (JStr s) /\
    fetchMarkets_entry market = Return (entry_of market s quote_increment unit_size).
Proof.
  destruct (js_get market "product_id") as [v | e] eqn:Hid.
  - destruct v as [| | b | x | s | items | fields];
      try (left; unfold fetchMarkets_entry; rewrite Hid; reflexivity).
    right. destruct (fetchMarkets_entry_string market s Hid) as (qi & us & H).
    now exists s, qi, us.
  - left. unfold fetchMarkets_entry. rewrite Hid. cbn [bind].
    destruct market; cbn [js_get] in Hid; congruence.
Qed.

(** The entries of the result are the loop body's, record by record. *)
Lemma fetchMarkets_loop_entries (markets : list JsValue) :
  forall (acc result : list Market.t),
    fetchMarkets_loop markets acc = Return result ->
    exists entries,
      result = (acc ++ entries)%list /\
      Forall2 (fun market entry => fetchMarkets_entry market = Return entry)
              markets entries.
Proof.
  induction markets as [| market markets IH]; intros acc result H.
  - cbn [fetchMarkets_loop] in H. injection H as <-.
    exists []. split; [now rewrite app_nil_r | constructor].
  - cbn [fetchMarkets_loop] in H.
    destruct (fetchMarkets_entry market) as [entry | e] eqn:He; [| discriminate H].
    cbn [bind] in H. destruct (IH _ _ H) as (entries & -> & Hall).
    exists (entry :: entries). split.
    + now rewrite <- app_assoc.
    + now constructor.
Qed.

Lemma fetchMarkets_entries (markets : list JsValue) (result : list Market.t) :
  fetchMarkets markets = Return result ->
  Forall2 (fun market entry => fetchMarkets_entry market = Return entry)
          markets result.
Proof.
  intros H. destruct (fetchMarkets_loop_entries _ _ _ H) as (entries & -> & Hall).
  exact Hall.
Qed.

Lemma fetchMarkets_loop_runs (markets : list JsValue) :
  forall acc : list Market.t,
    Forall (fun market => exists entry, fetchMarkets_entry market = Return entry)
           markets ->
    exists result, fetchMarkets_loop markets acc = Return result.
Proof.
  induction markets as [| market markets IH]; intros acc Hall.
  - now exists acc.
  - inversion Hall as [| ? ? [entry He] Hrest]; subst.
    cbn [fetchMarkets_loop]. rewrite He. cbn [bind]. apply IH, Hrest.
Qed.

Lemma fetchMarkets_loop_throws (markets : list JsValue) :
  forall (acc : list Market.t) (e : Exception),
    fetchMarkets_loop markets acc = Throw e -> e = TypeError.
Proof.
  induction markets as [| market markets IH]; intros acc e H.
  - discriminate H.
  - cbn [fetchMarkets_loop] in H.
    destruct (fetchMarkets_entry_cases market) as [Ht | (s & qi & us & _ & Hr)].
    + rewrite Ht in H. cbn [bind] in H. congruence.
    + rewrite Hr in H. cbn [bind] in H. exact (IH _ _ H).
Qed.

(** Every entry of a result was built by [entry_of]. *)
Lemma fetchMarkets_result (markets : list JsValue) (result : list Market.t) :
  fetchMarkets markets = Return result ->
  Forall2 (fun market entry =>
             exists s quote_increment unit_size,
               js_get market "product_id" = Return (JStr s) /\
               entry = entry_of market s quote_increment unit_size)
          markets result.
Proof.
  intros H. apply fetchMarkets_entries in H.
  induction H as [| market entry markets result He _ IH]; constructor; [| exact IH].
  destruct (fetchMarkets_entry_cases market) as [Ht | (s & qi & us & Hid & Hr)].
  - congruence.
  - exists s, qi, us. split; [exact Hid | congruence].
Qed.

Lemma Forall2_right {A B : Type} (R : A -> B -> Prop) (P : B -> Prop)
    (l : list A) (l' : list B) :
  (forall a b, R a b -> P b) -> Forall2 R l l' -> Forall P l'.
Proof.
  intros HRP H. induction H; constructor; eauto.
Qed.

(** C10.  Every entry of the list [fetchMarkets] returns has
    [active = true], whatever the venue's record holds. *)
Theorem fetchMarkets_active (markets : list JsValue) (result : list Market.t) :
  fetchMarkets markets = Return result ->
  Forall (fun entry => Market.active entry = true) result.
Proof.
  intros H. apply fetchMarkets_result in H.
  eapply Forall2_right; [| exact H].
  intros market entry (s & qi & us & _ & ->). reflexivity.
Qed.

(** C6, as the code has it.  In every entry [fetchMarkets] returns,
    [limits.price.min] is the constant 2, [limits.amount.min] is
    [safeFloat (market, 'min_size')], and [limits.cost.min] is their
    product as the language computes it: the number [amount.min * 2] when
    [amount.min] is a number, and [NaN] (a number, not [undefined]) when
    [amount.min] is [undefined]. *)
Theorem fetchMarkets_cost_min (markets : list JsValue) (result : list Market.t) :
  fetchMarkets markets = Return result ->
  Forall2 (fun market entry =>
             let limits := Market.limits entry in
             let amount_min := Limit.min (Limits.amount limits) in
             let price_min := Limit.min (Limits.price limits) in
             let cost_min := Limit.min (Limits.cost limits) in
             amount_min = safeFloat market "min_size" /\
             price_min = Some 2%float /\
             cost_min = Some (js_mul amount_min price_min) /\
             (forall x, amount_min = Some x -> cost_min = Some (x * 2)%float) /\
             (amount_min = None -> cost_min = Some nan))
          markets result.
Proof.
  intros H. apply fetchMarkets_result in H.
  induction H as [| market entry markets result Hentry _ IH]; constructor;
    [| exact IH].
  destruct Hentry as (s & qi & us & _ & ->). cbn.
  repeat split.
  - intros x ->. reflexivity.
  - intros ->. reflexivity.
Qed.

(** C5, as the code has it.  [fetchMarkets] does not validate the product
    id: it never raises [ExchangeError] (nor any other error class of the
    library), and every record whose [product_id] is a string yields an
    entry, whose [baseId] is the first segment of the id split on the
    hyphen and whose [quoteId] is the second segment, [undefined] when
    there is none; further segments are ignored. *)
Theorem fetchMarkets_no_id_validation (markets : list JsValue) :
  (forall kind message, fetchMarkets markets <> Throw (CcxtError kind message)) /\
  (Forall (fun market => exists s, js_get market "product_id" = Return (JStr s))
          markets ->
   exists result,
     fetchMarkets markets = Return result /\
     Forall2 (fun market entry =>
                exists s,
                  js_get market "product_id" = Return (JStr s) /\
                  Market.id entry = JStr s /\
                  Market.baseId entry = item (split "-" s) 0 /\
                  Market.quoteId entry = item (split "-" s) 1 /\
                  Market.symbol entry =
                    js_add (js_add (commonCurrencyCode (Market.baseId entry))
                                   (JStr "/"))
                           (commonCurrencyCode (Market.quoteId entry)))
             markets result).
Proof.
  split.
  - intros kind message H.
    apply fetchMarkets_loop_throws in H. discriminate H.
  - intros Hall.
    destruct (fetchMarkets_loop_runs markets []) as [result Hrun].
    { eapply Forall_impl; [| exact Hall].
      intros market [s Hid].
      destruct (fetchMarkets_entry_string market s Hid) as (qi & us & He).
      eauto. }
    exists result. split; [exact Hrun |].
    apply fetchMarkets_result in Hrun.
    eapply Forall2_impl; [| exact Hrun].
    intros market entry (s & qi & us & Hid & ->).
    exists s. repeat split. exact Hid.
Qed.

End Normalizer.

(** ** Request building and signing *)

Lemma append_assoc (a b c : string) : (a ++ b) ++ c = a ++ b ++ c.
Proof.
  induction a as [| x a IH]; cbn [append]; [reflexivity | now rewrite IH].
Qed.

Lemma append_empty (a : string) : a ++ EmptyString = a.
Proof.
  induction a as [| x a IH]; cbn [append]; [reflexivity | now rewrite IH].
Qed.

Section Signer.
Context {RT : JsRuntime} {Base : ExchangeBase}.
Variable this : Cpdax.
Variables (nonce : float) (path api method : string) (params : Obj).
Variables (headers body : JsValue).

#[local] Abbreviation query := (remaining_params path params).
#[local] Abbreviation suffix := (query_suffix query).
#[local] Abbreviation request := (requested_path this path api params).
#[local] Abbreviation origin := (api_origin this api).
#[local] Abbreviation payload := (signed_payload this nonce path api method params).

(** [sign], step by step: the only call that may raise is [hmac]. *)
Lemma sign_steps :
  sign this nonce path api method params headers body =
    if String.eqb api "private" then
      signature <- hmac payload (secret this) "sha256" ;;
      Return {|
        Request.url := origin ++ request;
        Request.method := method;
        Request.body := if String.eqb method "POST" then JObj params else body;
        Request.headers :=
          JObj [ ("CP-ACCESS-KEY", apiKey this);
                 ("CP-ACCESS-TIMESTAMP", JNum nonce);
                 ("CP-ACCESS-DIGEST", JStr signature) ]
      |}
    else
      Return {|
        Request.url := origin ++ request;
        Request.method := method;
        Request.body := body;
        Request.headers := headers
      |}.
Proof.
  assert (Hrequest :
    (if String.eqb api "public" || includes "/hist" path
     then match keys (omit params (extractParams path)) with
          | [] => "/" ++ version this ++ "/" ++ implodeParams path params
          | _ :: _ =>
              ("/" ++ version this ++ "/" ++ implodeParams path params) ++
              ("?" ++ urlencode (omit params (extractParams path)))
          end
     else "/" ++ version this ++ "/" ++ implodeParams path params) = request).
  { unfold requested_path, query_suffix, remaining_params.
    destruct (String.eqb api "public" || includes "/hist" path).
    - destruct (keys (omit params (extractParams path))).
      + now rewrite append_empty.
      + cbn [append]. now rewrite !append_assoc.
    - now rewrite append_empty. }
  assert (Hurl : forall r : string,
    ToString (js_add match lookup api (Urls.api (urls this)) with
                     | Some u => JStr u
                     | None =>
                         if inherited api then JStr (prototype_text api)
                         else JUndefined
                     end (JStr r)) = origin ++ r).
  { intros r. unfold api_origin, js_add.
    destruct (lookup api (Urls.api (urls this))); [reflexivity |].
    destruct (inherited api); reflexivity. }
  unfold sign. rewrite Hrequest, Hurl. unfold signed_payload.
  destruct (String.eqb api "private"); [| reflexivity].
  destruct (String.eqb method "POST"); cbn [bind];
    destruct (hmac _ (secret this) "sha256"); reflexivity.
Qed.

(** C3, as the code has it.  For a private request of an instance whose
    [apiKey] is the string [key], the text that is signed is [key], the
    nonce, the method in upper case and the requested path ([request]:
    version, resolved path, and the query string when the path contains
    [/hist]), followed by the JSON text of [params] exactly when the method
    is [POST]; it is signed by [hmac] with the secret and [sha256]; and the
    headers are exactly [CP-ACCESS-KEY] (the key), [CP-ACCESS-TIMESTAMP]
    (the nonce) and [CP-ACCESS-DIGEST] (the signature), in that order. *)
Theorem sign_private_signature (key signature : string) :
  api = "private" ->
  apiKey this = JStr key ->
  let text :=
    key ++ Number_toString nonce ++ toUpperCase method ++ request ++
    (if String.eqb method "POST" then JSON_stringify (JObj params)
     else EmptyString) in
  hmac (JStr text) (secret this) "sha256" = Return signature ->
  sign this nonce path api method params headers body =
    Return {|
      Request.url := origin ++ request;
      Request.method := method;
      Request.body := if String.eqb method "POST" then JObj params else body;
      Request.headers :=
        JObj [ ("CP-ACCESS-KEY", JStr key);
               ("CP-ACCESS-TIMESTAMP", JNum nonce);
               ("CP-ACCESS-DIGEST", JStr signature) ]
    |}.
Proof.
  intros Hapi Hkey text Hsigned.
  assert (Hpayload : payload = JStr text).
  { unfold signed_payload, text, js_add. rewrite Hkey.
    cbn [concatenates orb ToString].
    destruct (String.eqb method "POST"); cbn [concatenates orb ToString];
      now rewrite ?append_assoc, ?append_empty. }
  rewrite sign_steps.
  destruct (String.eqb_spec api "private") as [_ | Hne]; [| contradiction].
  rewrite Hpayload, Hsigned, Hkey. reflexivity.
Qed.

(** C4, as the code has it.  [sign] checks no credential.  A request that
    is not private is always returned.  A private request fails only when
    the inherited [hmac] raises, and with what [hmac] raised; otherwise it
    is returned signed, its [CP-ACCESS-KEY] being the [apiKey] of the
    instance as it is, [undefined] when absent, and its digest what [hmac]
    computed from the secret as it is. *)
Theorem sign_no_credential_check :
  (api <> "private" ->
   exists r, sign this nonce path api method params headers body = Return r) /\
  (forall e,
     sign this nonce path api method params headers body = Throw e ->
     api = "private" /\ hmac payload (secret this) "sha256" = Throw e) /\
  (forall r,
     sign this nonce path api method params headers body = Return r ->
     api = "private" ->
     exists signature,
       hmac payload (secret this) "sha256" = Return signature /\
       Request.headers r =
         JObj [ ("CP-ACCESS-KEY", apiKey this);
                ("CP-ACCESS-TIMESTAMP", JNum nonce);
                ("CP-ACCESS-DIGEST", JStr signature) ]).
Proof.
  rewrite sign_steps.
  destruct (String.eqb_spec api "private") as [Hapi | Hapi].
  - destruct (hmac payload (secret this) "sha256") as [signature | e0];
      cbn [bind].
    + split; [intros Hne; now destruct Hne |].
      split; [intros e H; discriminate H |].
      intros r Hr _. injection Hr as <-. now exists signature.
    + split; [intros Hne; now destruct Hne |].
      split; [intros e H; injection H as <-; now split |].
      intros r Hr. discriminate Hr.
  - split; [intros _; eauto |].
    split; [intros e H; discriminate H |].
    intros r _ Habs. now destruct Hapi.
Qed.

(** C7, as the code has it.  The parameters that are not path
    placeholders ([query]) are appended to the URL as a query string, when
    there is any, for a public request whatever the method, and for a
    private request only when the path contains [/hist]; a private request
    carries all of [params], placeholders included, as its body when the
    method is [POST], and otherwise the body it was given, as a public
    request does. *)
Theorem sign_query_placement (r : Request.t) :
  sign this nonce path api method params headers body = Return r ->
  let resolved := "/" ++ version this ++ "/" ++ implodeParams path params in
  (api = "public" ->
   Request.url r = origin ++ resolved ++ suffix /\
   Request.body r = body) /\
  (api = "private" ->
   Request.url r =
     origin ++ resolved ++ (if includes "/hist" path then suffix else EmptyString) /\
   Request.body r = if String.eqb method "POST" then JObj params else body).
Proof.
  rewrite sign_steps. intros Hr resolved.
  assert (Hrequest : request =
    resolved ++ (if String.eqb api "public" || includes "/hist" path
                 then suffix else EmptyString)).
  { unfold requested_path, resolved. cbn [append]. now rewrite !append_assoc. }
  split; intros Hapi; rewrite Hapi in Hr, Hrequest |- *;
    cbn [String.eqb Ascii.eqb Bool.eqb orb] in Hr, Hrequest.
  - injection Hr as <-. cbn [Request.url Request.body].
    now rewrite Hrequest.
  - match type of Hr with
    | context [hmac ?p ?k ?h] => destruct (hmac p k h) as [signature | e]
    end; cbn [bind] in Hr; [| discriminate Hr].
    injection Hr as <-. cbn [Request.url Request.body].
    now rewrite Hrequest.
Qed.

End Signer.

(** None of the private paths that [describe ()] declares contains
    [/hist]: on them the guard of [sign] lets no query string through. *)
Lemma declared_private_paths_without_hist :
  Forall (fun path => includes "/hist" path = false)
         (declared_paths describe "private").
Proof. repeat constructor. Qed.

(** ** The methods at work, in the sample environment *)

(** The sample helper scans as the spec has it. *)
Lemma sample_scan (broad : list (string * ErrorKind)) (s : string) :
  findBroadlyMatchedKey (ExchangeBase := Sample.base) broad (JStr s) =
    Return (broadlyMatchedKey broad s).
Proof. reflexivity. Qed.

(** C8 at work: a success status with the body of an error. *)
Lemma handleErrors_success_below_400_witness :
  (2 <= String.length Sample.nonce_body)%nat /\
  (200 < 400)%Z /\
  Run.classify 200 Sample.nonce_body = Return tt.
Proof.
  split; [vm_compute; lia |]. split; [lia |].
  apply handleErrors_success_below_400; [vm_compute; lia | lia].
Defined.

(** C2 at work: a gateway page is passed over, an object of unknown shape
    is an [ExchangeError]. *)
Lemma handleErrors_unrecognized_body_witness :
  Run.classify 502 Sample.gateway_body = Return tt /\
  Run.classify 400 Sample.shapeless_body =
    Throw (CcxtError ExchangeError ("cpdax " ++ Sample.shapeless_body)).
Proof.
  split.
  - refine (proj1 (handleErrors_unrecognized_body describe 502 _ _ _ _
                     Sample.gateway_body _ _) _).
    + vm_compute; lia.
    + lia.
    + vm_compute. discriminate.
  - refine (proj2 (handleErrors_unrecognized_body describe 400 _ _ _ _
                     Sample.shapeless_body _ _)
                  [("status", JStr "error")] _ _ _ _).
    + vm_compute; lia.
    + lia.
    + reflexivity.
    + vm_compute. reflexivity.
    + reflexivity.
    + reflexivity.
Defined.

(** C2 as stated fails: at status 502 the gateway page has length 2 or
    more and does not parse, yet nothing is raised; and a body that opens
    a brace and does not parse raises the parser's [SyntaxError], not an
    [ExchangeError]. *)
Lemma handleErrors_malformed_counterexample :
  (400 <= 502)%Z /\
  (2 <= String.length Sample.gateway_body)%nat /\
  Sample.JSON_parse Sample.gateway_body = None /\
  Run.classify 502 Sample.gateway_body = Return tt /\
  (forall text,
     Run.classify 502 Sample.gateway_body <> Throw (CcxtError ExchangeError text)) /\
  (2 <= String.length Sample.truncated_body)%nat /\
  Sample.JSON_parse Sample.truncated_body = None /\
  Run.classify 502 Sample.truncated_body = Throw SyntaxError.
Proof.
  split; [lia |].
  split; [vm_compute; lia |].
  split; [vm_compute; reflexivity |].
  split; [vm_compute; reflexivity |].
  split; [intros text; vm_compute; discriminate |].
  split; [vm_compute; lia |].
  split; vm_compute; reflexivity.
Qed.

(** C1 at work.  With the tables of [describe ()]: an exact key; a message
    in which the second and the fourth broad key occur, labelled by the
    second; and a message read from [error], in which the third and the
    fourth occur.  With tables that overlap: a message that is an exact key
    and in which both broad keys occur is labelled by the exact table, not
    by the key the scan would return; and a message that is no exact key,
    in which both broad keys occur, is labelled by the broad key declared
    first. *)
Lemma handleErrors_exact_before_broad_witness :
  (Run.classify 400 Sample.nonce_body =
     Throw (CcxtError InvalidNonce ("cpdax " ++ Sample.nonce_body)) /\
   Run.classify 400 Sample.funds_body =
     Throw (CcxtError InsufficientFunds ("cpdax " ++ Sample.funds_body)) /\
   Run.classify 400 Sample.size_body =
     Throw (CcxtError InvalidOrder ("cpdax " ++ Sample.size_body))) /\
  (broadlyMatchedKey (Exceptions.broad (exceptions Sample.overlapping))
     "Invalid order" = Some "Invalid" /\
   handleErrors (RT := Sample.runtime) (Base := Sample.base)
     Sample.overlapping 400 "" "" "" JUndefined Sample.order_body =
     Throw (CcxtError OrderNotFound ("cpdax " ++ Sample.order_body)) /\
   handleErrors (RT := Sample.runtime) (Base := Sample.base)
     Sample.overlapping 400 "" "" "" JUndefined Sample.rejected_body =
     Throw (CcxtError PermissionDenied ("cpdax " ++ Sample.rejected_body))).
Proof.
  split; [split; [| split] | split; [| split]].
  - refine (proj1 (handleErrors_exact_before_broad describe 400 _ _ _ _
                     Sample.nonce_body
                     [("message", JStr "Nonce is too small.")]
                     "Nonce is too small."
                     _ _ _ _ _) InvalidNonce _).
    + vm_compute; lia.
    + lia.
    + reflexivity.
    + vm_compute. reflexivity.
    + left. reflexivity.
    + reflexivity.
  - refine (proj2 (handleErrors_exact_before_broad describe 400 _ _ _ _
                     Sample.funds_body
                     [("message",
                       JStr "Invalid order: not enough exchange balance for BTC")]
                     "Invalid order: not enough exchange balance for BTC"
                     _ _ _ _ _) eq_refl inherited_not_broad (sample_scan _ _)
                  [("This API key does not have permission", PermissionDenied)]
                  "Invalid order: not enough exchange balance for "
                  InsufficientFunds
                  _ eq_refl _ _).
    + vm_compute; lia.
    + lia.
    + reflexivity.
    + vm_compute. reflexivity.
    + left. reflexivity.
    + repeat constructor. apply includes_false. vm_compute. reflexivity.
    + apply includes_Substring. vm_compute. reflexivity.
  - refine (proj2 (handleErrors_exact_before_broad describe 400 _ _ _ _
                     Sample.size_body
                     [("error",
                       JStr "Invalid order: minimum size for BTC is 0.001")]
                     "Invalid order: minimum size for BTC is 0.001"
                     _ _ _ _ _) eq_refl inherited_not_broad (sample_scan _ _)
                  [("This API key does not have permission", PermissionDenied);
                   ("Invalid order: not enough exchange balance for ",
                    InsufficientFunds)]
                  "Invalid order: minimum size for "
                  InvalidOrder
                  _ eq_refl _ _).
    + vm_compute; lia.
    + lia.
    + reflexivity.
    + vm_compute. reflexivity.
    + right. split; reflexivity.
    + repeat constructor; apply includes_false; vm_compute; reflexivity.
    + apply includes_Substring. vm_compute. reflexivity.
  - reflexivity.
  - refine (proj1 (handleErrors_exact_before_broad
                     (RT := Sample.runtime) (Base := Sample.base)
                     Sample.overlapping 400 _ _ _ _ Sample.order_body
                     [("message", JStr "Invalid order")] "Invalid order"
                     _ _ _ _ _) OrderNotFound eq_refl).
    + vm_compute; lia.
    + lia.
    + reflexivity.
    + vm_compute. reflexivity.
    + left. reflexivity.
  - refine (proj2 (handleErrors_exact_before_broad
                     (RT := Sample.runtime) (Base := Sample.base)
                     Sample.overlapping 400 _ _ _ _ Sample.rejected_body
                     [("message", JStr "Invalid order rejected")]
                     "Invalid order rejected"
                     _ _ _ _ _) eq_refl
                  (inherited_clear
                     (Exceptions.broad (exceptions Sample.overlapping)) eq_refl)
                  (sample_scan _ _)
                  [] "Invalid" PermissionDenied _ eq_refl _ _).
    + vm_compute; lia.
    + lia.
    + reflexivity.
    + vm_compute. reflexivity.
    + left. reflexivity.
    + constructor.
    + apply includes_Substring. vm_compute. reflexivity.
Defined.

(** C3 at work: an order is posted, and the same call with the method in
    lower case, whose text has the method in upper case and no JSON, and
    whose body is the one given. *)
Lemma sign_private_signature_witness :
  let key := "752d07a5cef56223ed1b0c558fbcfb444f012f4338d132eb46c8ca6c7981928a" in
  let password := "MmIyNDRiYTctMDMzMy00ODkyLThlNTgtZTRhNmRlN2ZjZDZm" in
  let params := [ ("price", JStr "100"); ("size", JNum 0.5) ] in
  let stamped (signature : string) :=
    JObj [ ("CP-ACCESS-KEY", JStr key);
           ("CP-ACCESS-TIMESTAMP", JNum 1530000000);
           ("CP-ACCESS-DIGEST", JStr signature) ] in
  Run.signed describe "orders" "private" "POST" params =
    Return {|
      Request.url := "https://www.cpdax.com/v1/orders";
      Request.method := "POST";
      Request.body := JObj params;
      Request.headers :=
        stamped ("sha256(" ++ password ++ "," ++ key ++ "1530000000POST/v1/orders"
                 ++ Sample.JSON_stringify (JObj params) ++ ")")
    |} /\
  Run.signed describe "orders" "private" "post" params =
    Return {|
      Request.url := "https://www.cpdax.com/v1/orders";
      Request.method := "post";
      Request.body := JUndefined;
      Request.headers :=
        stamped ("sha256(" ++ password ++ "," ++ key ++ "1530000000POST/v1/orders)")
    |}.
Proof.
  cbv zeta. split.
  - refine (sign_private_signature (RT := Sample.runtime) (Base := Sample.base)
              describe 1530000000 "orders" "private" "POST" _ _ _ _ _ eq_refl eq_refl _).
    vm_compute. reflexivity.
  - refine (sign_private_signature (RT := Sample.runtime) (Base := Sample.base)
              describe 1530000000 "orders" "private" "post" _ _ _ _ _ eq_refl eq_refl _).
    vm_compute. reflexivity.
Defined.

(** C3 as stated fails: the three headers of a signed request are not
    named [ACCESS-KEY], [ACCESS-TIMESTAMP] and [ACCESS-DIGEST]. *)
Lemma sign_header_names_counterexample :
  exists r,
    Run.signed describe "balance" "private" "GET" [] = Return r /\
    header_names (Request.headers r) =
      [ "CP-ACCESS-KEY"; "CP-ACCESS-TIMESTAMP"; "CP-ACCESS-DIGEST" ] /\
    header_names (Request.headers r) <>
      [ "ACCESS-KEY"; "ACCESS-TIMESTAMP"; "ACCESS-DIGEST" ].
Proof.
  eexists. split; [vm_compute; reflexivity |].
  split; [reflexivity | discriminate].
Qed.

(** C4 as stated fails: an instance without [apiKey] signs a private
    request and returns it, the key header being [undefined] and the
    signed text starting with [NaN]; and neither without [apiKey] nor
    without [secret] is an [AuthenticationError] raised. *)
Lemma sign_absent_credentials_counterexample :
  let password := "MmIyNDRiYTctMDMzMy00ODkyLThlNTgtZTRhNmRlN2ZjZDZm" in
  let keyless := with_credentials describe JUndefined (secret describe) in
  let secretless := with_credentials describe (apiKey describe) JUndefined in
  Run.signed keyless "balance" "private" "GET" [] =
    Return {|
      Request.url := "https://www.cpdax.com/v1/balance";
      Request.method := "GET";
      Request.body := JUndefined;
      Request.headers :=
        JObj [ ("CP-ACCESS-KEY", JUndefined);
               ("CP-ACCESS-TIMESTAMP", JNum 1530000000);
               ("CP-ACCESS-DIGEST",
                JStr ("sha256(" ++ password ++ ",NaNGET/v1/balance)")) ]
    |} /\
  (forall message,
     Run.signed keyless "balance" "private" "GET" [] <>
       Throw (CcxtError AuthenticationError message)) /\
  (forall message,
     Run.signed secretless "balance" "private" "GET" [] <>
       Throw (CcxtError AuthenticationError message)).
Proof.
  cbv zeta. split; [vm_compute; reflexivity |].
  split; intros message; vm_compute; discriminate.
Qed.

(** C7 at work: a public ticker request with a placeholder and one more
    parameter, and a private order. *)
Lemma sign_query_placement_witness :
  (exists r,
     Run.signed describe "tickers/{symbol}" "public" "DELETE"
       [ ("symbol", JStr "BTC-KRW"); ("limit", JNum 5) ] = Return r /\
     Request.url r = "https://www.cpdax.com/v1/tickers/BTC-KRW?limit=5" /\
     Request.body r = JUndefined) /\
  (exists r,
     Run.signed describe "orders/{symbol}" "private" "GET"
       [ ("symbol", JStr "BTC-KRW"); ("limit", JNum 5) ] = Return r /\
     Request.url r = "https://www.cpdax.com/v1/orders/BTC-KRW" /\
     Request.body r = JUndefined).
Proof.
  split; eexists; (split; [vm_compute; reflexivity |]).
  - refine (proj1 (sign_query_placement (RT := Sample.runtime) (Base := Sample.base)
                     describe 1530000000 "tickers/{symbol}" "public" "DELETE"
                     [ ("symbol", JStr "BTC-KRW"); ("limit", JNum 5) ]
                     JUndefined JUndefined _ _) eq_refl).
    vm_compute. reflexivity.
  - refine (proj2 (sign_query_placement (RT := Sample.runtime) (Base := Sample.base)
                     describe 1530000000 "orders/{symbol}" "private" "GET"
                     [ ("symbol", JStr "BTC-KRW"); ("limit", JNum 5) ]
                     JUndefined JUndefined _ _) eq_refl).
    vm_compute. reflexivity.
Defined.

(** C7 as stated fails: a private request whose path contains [/hist]
    has its remaining parameter in the query string of the URL. *)
Lemma sign_private_query_counterexample :
  exists r,
    Run.signed describe "orders/hist" "private" "GET" [ ("limit", JNum 5) ] =
      Return r /\
    Request.url r = "https://www.cpdax.com/v1/orders/hist?limit=5".
Proof.
  eexists. split; vm_compute; reflexivity.
Qed.

(** C10 at work: a record that says it is offline and inactive. *)
Lemma fetchMarkets_active_witness :
  exists result,
    Run.markets [ Sample.btc_krw; Sample.unsplit ] = Return result /\
    Forall (fun entry => Market.active entry = true) result.
Proof.
  eexists. split; [vm_compute; reflexivity |].
  apply (fetchMarkets_active (RT := Sample.runtime) (Base := Sample.base)
           [ Sample.btc_krw; Sample.unsplit ]).
  vm_compute. reflexivity.
Defined.

(** A record with every field the method reads, normalised. *)
Example fetchMarkets_btc_krw :
  exists entry,
    Run.markets [ Sample.btc_krw ] = Return [ entry ] /\
    Market.symbol entry = JStr "BTC/KRW" /\
    Market.base entry = JStr "BTC" /\
    Market.quote entry = JStr "KRW" /\
    Limit.min (Limits.amount (Market.limits entry)) = Some 0.001%float /\
    Limit.min (Limits.cost (Market.limits entry)) = Some 0.002%float.
Proof.
  eexists. split; [vm_compute; reflexivity |]. repeat split.
Qed.

(** C6 at work: a record with a minimum size, and one without. *)
Lemma fetchMarkets_cost_min_witness :
  exists sized unsized,
    Run.markets [ Sample.btc_krw; Sample.eth_krw_unsized ] =
      Return [ sized; unsized ] /\
    Limit.min (Limits.cost (Market.limits sized)) = Some (0.001 * 2)%float /\
    Limit.min (Limits.cost (Market.limits unsized)) = Some nan.
Proof.
  do 2 eexists. split; [vm_compute; reflexivity |].
  pose proof (fetchMarkets_cost_min (RT := Sample.runtime) (Base := Sample.base)
                [ Sample.btc_krw; Sample.eth_krw_unsized ] _ eq_refl) as H.
  inversion H as [| ? ? ? ? H1 Hrest]; subst.
  inversion Hrest as [| ? ? ? ? H2 _]; subst.
  split.
  - exact (proj1 (proj2 (proj2 (proj2 H1))) _ eq_refl).
  - exact (proj2 (proj2 (proj2 (proj2 H2))) eq_refl).
Defined.

(** C6 as stated fails: for a record without [min_size] the minimum
    amount is [undefined], and the minimum cost is not [undefined]: it is
    the number [NaN]. *)
Lemma fetchMarkets_cost_min_counterexample :
  exists entry,
    Run.markets [ Sample.eth_krw_unsized ] = Return [ entry ] /\
    Limit.min (Limits.amount (Market.limits entry)) = None /\
    Limit.min (Limits.cost (Market.limits entry)) = Some nan /\
    Limit.min (Limits.cost (Market.limits entry)) <> None.
Proof.
  eexists. split; [vm_compute; reflexivity |].
  split; [reflexivity |]. split; [reflexivity | discriminate].
Qed.

(** C5 as stated fails: an id without a hyphen has one segment, and the
    record yields an entry, with no quote id and the symbol
    [INVALID/undefined]; no [ExchangeError] is raised. *)
Lemma fetchMarkets_unsplit_id_counterexample :
  split "-" "INVALID" = [ "INVALID" ] /\
  (exists entry,
     Run.markets [ Sample.unsplit ] = Return [ entry ] /\
     Market.baseId entry = JStr "INVALID" /\
     Market.quoteId entry = JUndefined /\
     Market.symbol entry = JStr "INVALID/undefined") /\
  (forall text,
     Run.markets [ Sample.unsplit ] <> Throw (CcxtError ExchangeError text)).
Proof.
  split; [reflexivity |]. split.
  - eexists. split; [vm_compute; reflexivity |]. repeat split.
  - intros text. vm_compute. discriminate.
Qed.

(** * Further properties *)

(** ** The error classifier, beyond the tables *)

Lemma lookup_In_kind (k : string) (tbl : list (string * ErrorKind))
    (kind : ErrorKind) :
  lookup k tbl = Some kind -> In kind (map snd tbl).
Proof.
  induction tbl as [| [k' v] tbl IH]; cbn [lookup map snd]; [discriminate |].
  destruct (String.eqb k k'); intros H.
  - injection H as ->. now left.
  - right. exact (IH H).
Qed.

(** A library error made by [new tbl[k] (feedback)] has the class of an
    entry of the table, and the feedback for text. *)
Lemma throw_new_class (tbl : list (string * ErrorKind)) (k feedback : string)
    (kind : ErrorKind) (text : string) :
  throw_new tbl k feedback = CcxtError kind text ->
  In kind (map snd tbl) /\ text = feedback.
Proof.
  unfold throw_new. destruct (lookup k tbl) as [kind' |] eqn:Hk.
  - intros H. injection H as -> ->. split; [| reflexivity].
    exact (lookup_In_kind _ _ _ Hk).
  - destruct (String.eqb k "constructor"); discriminate.
Qed.

Section ClassifierMore.
Context {RT : JsRuntime} {Base : ExchangeBase}.
Variable this : Cpdax.
Variables (code : Z) (reason url method : string) (headers : JsValue).

(** Past the three guards every path of [handleErrors] ends in a throw:
    the method, entered with a response, is what is left of it. *)
Lemma handleErrors_entered (body : string) :
  (2 <= String.length body)%nat ->
  (400 <= code)%Z ->
  first_char body = Some "{"%char ->
  handleErrors this code reason url method headers body =
    match JSON_parse body with
    | None => Throw SyntaxError
    | Some response =>
        let feedback := id this ++ " " ++ json response in
        has_message <- js_in "message" response ;;
        message <-
          (if has_message : bool then js_get response "message"
           else
             has_error <- js_in "error" response ;;
             if has_error : bool then js_get response "error"
             else Throw (CcxtError ExchangeError feedback)) ;;
        let exact := Exceptions.exact (exceptions this) in
        if js_in_table (ToString message) exact
        then Throw (throw_new exact (ToString message) feedback)
        else
          let broad := Exceptions.broad (exceptions this) in
          broadKey <- findBroadlyMatchedKey broad message ;;
          match broadKey with
          | Some key => Throw (throw_new broad key feedback)
          | None => Throw (CcxtError ExchangeError feedback)
          end
    end.
Proof.
  intros Hlen Hcode Hfirst. unfold handleErrors.
  destruct (Nat.ltb_spec (String.length body) 2); [lia |].
  destruct (Z.leb_spec 400 code); [| lia].
  now rewrite Hfirst.
Qed.

Lemma handleErrors_raises (body : string) :
  (2 <= String.length body)%nat ->
  (400 <= code)%Z ->
  first_char body = Some "{"%char ->
  exists e, handleErrors this code reason url method headers body = Throw e.
Proof.
  intros Hlen Hcode Hfirst.
  rewrite (handleErrors_entered body Hlen Hcode Hfirst).
  destruct (JSON_parse body) as [response |]; [| eauto]. cbv zeta.
  destruct (js_in "message" response) as [[|] | e]; cbn [bind]; [| | eauto].
  - destruct (js_get response "message") as [message | e]; cbn [bind]; [| eauto].
    destruct (js_in_table _ _); [eauto |].
    destruct (findBroadlyMatchedKey _ message) as [[key |] | e]; cbn [bind]; eauto.
  - destruct (js_in "error" response) as [[|] | e]; cbn [bind]; eauto.
    destruct (js_get response "error") as [message | e]; cbn [bind]; [| eauto].
    destruct (js_in_table _ _); [eauto |].
    destruct (findBroadlyMatchedKey _ message) as [[key |] | e]; cbn [bind]; eauto.
Qed.

(** Each guard lets the response go. *)
Lemma handleErrors_let_go (body : string) :
  (String.length body < 2)%nat \/ (code < 400)%Z \/
  first_char body <> Some "{"%char ->
  handleErrors this code reason url method headers body = Return tt.
Proof.
  unfold handleErrors. intros [Hlen | [Hcode | Hfirst]].
  - destruct (Nat.ltb_spec (String.length body) 2); [reflexivity | lia].
  - destruct (String.length body <? 2)%nat; [reflexivity |].
    destruct (Z.leb_spec 400 code); [lia | reflexivity].
  - destruct (String.length body <? 2)%nat; [reflexivity |].
    destruct (400 <=? code)%Z; [| reflexivity].
    destruct (first_char body) as [c |]; [| reflexivity].
    destruct (Ascii.eqb_spec c "{"%char) as [-> | _]; [| reflexivity].
    now destruct Hfirst.
Qed.

(** X1.  [handleErrors] returns normally exactly when one of its three
    guards lets the response go: the body has fewer than two characters, or
    the status is below 400, or the body does not start with an opening
    brace.  In every other case it raises, whatever the body holds. *)
Theorem handleErrors_returns_iff (body : string) :
  handleErrors this code reason url method headers body = Return tt <->
  (String.length body < 2)%nat \/ (code < 400)%Z \/
  first_char body <> Some "{"%char.
Proof.
  split.
  - intros Hreturn.
    destruct (Nat.ltb_spec (String.length body) 2) as [| Hlen]; [now left |].
    destruct (Z.ltb_spec code 400) as [| Hcode]; [now right; left |].
    right; right. intros Hfirst.
    destruct (handleErrors_raises body Hlen Hcode Hfirst) as [e He].
    congruence.
  - apply handleErrors_let_go.
Qed.

(** X2.  When the inherited scan raises no error of the library, a library
    error raised by [handleErrors] has the class [ExchangeError] or the
    class of an entry of one of the two tables, and its text is the id of
    the exchange, a space and the JSON text of the parsed body. *)
Theorem handleErrors_raised_class (body : string) (kind : ErrorKind)
    (text : string) :
  (forall broad message k t,
     findBroadlyMatchedKey broad message <> Throw (CcxtError k t)) ->
  handleErrors this code reason url method headers body =
    Throw (CcxtError kind text) ->
  (exists response,
     JSON_parse body = Some response /\
     text = id this ++ " " ++ json response) /\
  (kind = ExchangeError \/
   In kind (map snd (Exceptions.exact (exceptions this))) \/
   In kind (map snd (Exceptions.broad (exceptions this)))).
Proof.
  intros Hscan Hthrown.
  assert (Hguards : (2 <= String.length body)%nat /\ (400 <= code)%Z /\
                    first_char body = Some "{"%char).
  { destruct (Nat.ltb_spec (String.length body) 2) as [Hlen | Hlen].
    - rewrite (handleErrors_let_go body (or_introl Hlen)) in Hthrown.
      discriminate Hthrown.
    - destruct (Z.ltb_spec code 400) as [Hcode | Hcode].
      + rewrite (handleErrors_let_go body
                   (or_intror (or_introl Hcode))) in Hthrown.
        discriminate Hthrown.
      + repeat split; [exact Hlen | exact Hcode |].
        assert (Hdec : first_char body = Some "{"%char \/
                       first_char body <> Some "{"%char).
        { destruct (first_char body) as [c |]; [| right; discriminate].
          destruct (Ascii.eqb_spec c "{"%char) as [-> | Hne];
            [now left | right; congruence]. }
        destruct Hdec as [Hfirst | Hfirst]; [exact Hfirst |].
        rewrite (handleErrors_let_go body
                   (or_intror (or_intror Hfirst))) in Hthrown.
        discriminate Hthrown. }
  destruct Hguards as (Hlen & Hcode & Hfirst).
  rewrite (handleErrors_entered body Hlen Hcode Hfirst) in Hthrown.
  destruct (JSON_parse body) as [response |]; [| discriminate Hthrown].
  cbv zeta in Hthrown.
  assert (Hrest : forall message,
    (if js_in_table (ToString message) (Exceptions.exact (exceptions this))
     then Throw (throw_new (Exceptions.exact (exceptions this))
                   (ToString message) (id this ++ " " ++ json response))
     else
       broadKey <- findBroadlyMatchedKey
                     (Exceptions.broad (exceptions this)) message ;;
       match broadKey with
       | Some key =>
           Throw (throw_new (Exceptions.broad (exceptions this)) key
                    (id this ++ " " ++ json response))
       | None => Throw (CcxtError ExchangeError (id this ++ " " ++ json response))
       end) = (Throw (CcxtError kind text) : Outcome unit) ->
    text = id this ++ " " ++ json response /\
    (kind = ExchangeError \/
     In kind (map snd (Exceptions.exact (exceptions this))) \/
     In kind (map snd (Exceptions.broad (exceptions this))))).
  { intros message H.
    destruct (js_in_table _ _).
    - injection H as H. apply throw_new_class in H. intuition.
    - destruct (findBroadlyMatchedKey _ message) as [[key |] | e] eqn:Hfound;
        cbn [bind] in H.
      + injection H as H. apply throw_new_class in H. intuition.
      + injection H as <- <-. intuition.
      + injection H as ->. now destruct (Hscan _ _ _ _ Hfound). }
  assert (Hgoal : text = id this ++ " " ++ json response /\
    (kind = ExchangeError \/
     In kind (map snd (Exceptions.exact (exceptions this))) \/
     In kind (map snd (Exceptions.broad (exceptions this))))).
  { destruct (js_in "message" response) as [[|] | e] eqn:Hin;
      cbn [bind] in Hthrown.
    - destruct (js_get response "message") as [message | e] eqn:Hget;
        cbn [bind] in Hthrown.
      + exact (Hrest _ Hthrown).
      + injection Hthrown as ->.
        destruct response; cbn [js_get] in Hget; discriminate Hget.
    - destruct (js_in "error" response) as [[|] | e] eqn:Herr; cbn [bind] in Hthrown.
      + destruct (js_get response "error") as [message | e] eqn:Hget;
          cbn [bind] in Hthrown.
        * exact (Hrest _ Hthrown).
        * injection Hthrown as ->.
          destruct response; cbn [js_get] in Hget; discriminate Hget.
      + injection Hthrown as <- <-. intuition.
      + injection Hthrown as ->.
        destruct response; cbn [js_in] in Herr; discriminate Herr.
    - injection Hthrown as ->.
      destruct response; cbn [js_in] in Hin; discriminate Hin. }
  destruct Hgoal as [Htext Hkind]. split; [| exact Hkind].
  exists response. now split.
Qed.

(** X3.  The [in] operator also finds the properties every object
    inherits.  A message that is the name of one of them (such as
    [toString] or [constructor]) and is no key of the exact table makes
    [handleErrors] raise, without asking the broad table, something that is
    not an error of the library. *)
Theorem handleErrors_inherited_name (body : string) (fields : Obj)
    (message : string) :
  (2 <= String.length body)%nat ->
  (400 <= code)%Z ->
  first_char body = Some "{"%char ->
  JSON_parse body = Some (JObj fields) ->
  lookup "message" fields = Some (JStr message) \/
  (lookup "message" fields = None /\ lookup "error" fields = Some (JStr message)) ->
  inherited message = true ->
  lookup message (Exceptions.exact (exceptions this)) = None ->
  exists e,
    handleErrors this code reason url method headers body = Throw e /\
    forall kind text, e <> CcxtError kind text.
Proof.
  intros Hlen Hcode Hfirst Hparse Hmessage Hinh Hexact.
  rewrite (handleErrors_object this code reason url method headers
             body fields Hlen Hcode Hfirst Hparse).
  cbv zeta. rewrite (handleErrors_message _ _ _ Hmessage). cbn [bind ToString].
  unfold js_in_table, throw_new. rewrite Hexact, Hinh.
  destruct (String.eqb message "constructor");
    eexists; (split; [reflexivity | discriminate]).
Qed.

End ClassifierMore.

(** ** Requests, beyond the signature *)

Section SignerMore.
Context {RT : JsRuntime} {Base : ExchangeBase}.
Variable this : Cpdax.
Variables (nonce : float) (path api method : string) (params : Obj).
Variables (headers body : JsValue).

(** X4.  A request that is not private carries nothing of the
    credentials or of the nonce: [sign] gives the same descriptor for every
    [apiKey], [secret] and nonce, and hands the headers and the body back
    as they came. *)
Theorem sign_public_without_credentials (key password : JsValue)
    (nonce' : float) :
  api <> "private" ->
  sign (with_credentials this key password) nonce' path api method params
       headers body =
    sign this nonce path api method params headers body /\
  exists url,
    sign this nonce path api method params headers body =
      Return {|
        Request.url := url;
        Request.method := method;
        Request.body := body;
        Request.headers := headers
      |}.
Proof.
  intros Hapi. rewrite !sign_steps.
  destruct (String.eqb_spec api "private") as [Heq | _]; [contradiction |].
  split; [reflexivity | eauto].
Qed.

(** X5.  A private request whose method is not [POST] and whose path has
    no [/hist] uses [params] to fill the placeholders of the path and for
    nothing else: two parameter objects that resolve the path alike give
    the same descriptor, so every other parameter is dropped, from the
    URL, the body and the signed text. *)
Theorem sign_private_drops_params (params' : Obj) :
  api = "private" ->
  method <> "POST" ->
  includes "/hist" path = false ->
  implodeParams path params = implodeParams path params' ->
  sign this nonce path api method params headers body =
    sign this nonce path api method params' headers body.
Proof.
  intros Hapi Hmethod Hhist Hpath. rewrite !sign_steps.
  unfold signed_payload, requested_path.
  rewrite Hapi, Hhist, Hpath. cbn [String.eqb Ascii.eqb Bool.eqb orb].
  destruct (String.eqb_spec method "POST") as [Heq | _]; [contradiction |].
  reflexivity.
Qed.

End SignerMore.

(** X6.  [sign] does not check the API class: for a class that is
    neither [public] nor [private], for which [describe ()] configures no
    URL, it raises nothing and returns a descriptor whose URL is the
    requested path after the text [undefined], or, when the class is the
    name of a property every object inherits (such as [constructor]), after
    the text of that property; headers and body are those it was given. *)
Theorem sign_unknown_api_class {RT : JsRuntime} {Base : ExchangeBase}
    (nonce : float) (path api method : string) (params : Obj)
    (headers body : JsValue) :
  api <> "public" ->
  api <> "private" ->
  sign describe nonce path api method params headers body =
    Return {|
      Request.url :=
        (if inherited api then prototype_text api else "undefined") ++
        "/v1/" ++ implodeParams path params ++
        (if includes "/hist" path
         then query_suffix (remaining_params path params)
         else EmptyString);
      Request.method := method;
      Request.body := body;
      Request.headers := headers
    |}.
Proof.
  intros Hpublic Hprivate. rewrite sign_steps.
  unfold api_origin, requested_path. cbn [urls describe Urls.api lookup version].
  destruct (String.eqb_spec api "private") as [Heq | _]; [contradiction |].
  destruct (String.eqb_spec api "public") as [Heq | _]; [contradiction |].
  reflexivity.
Qed.

(** ** Markets, beyond the limits *)

Lemma length_append (a b : string) :
  String.length (a ++ b) = (String.length a + String.length b)%nat.
Proof.
  induction a as [| c a IH]; cbn [append String.length]; [reflexivity |].
  now rewrite IH.
Qed.

Lemma append_cancel (a x y : string) : a ++ x = a ++ y -> x = y.
Proof.
  induction a as [| c a IH]; cbn [append]; [trivial |].
  intros H. injection H as H. exact (IH H).
Qed.

(** Joining the segments with the separator gives the string back. *)
Lemma concat_split (sep : ascii) (s : string) :
  String.concat (String sep EmptyString) (split sep s) = s.
Proof.
  induction s as [| c s IH]; [reflexivity |].
  cbn [split]. pose proof (split_nonempty sep s) as Hne.
  destruct (Ascii.eqb_spec c sep) as [-> | _].
  - destruct (split sep s) as [| seg segs]; [contradiction |].
    cbn [String.concat append] in *. now rewrite IH.
  - destruct (split sep s) as [| seg segs]; [contradiction |].
    destruct segs as [| seg' segs]; cbn [String.concat append] in *;
      now rewrite IH.
Qed.

(** There is a second segment exactly when the separator occurs. *)
Lemma split_second (sep : ascii) (s : string) :
  nth_error (split sep s) 1 = None <-> ~ Substring (String sep EmptyString) s.
Proof.
  induction s as [| c s IH].
  - split; [| reflexivity]. intros _ (pre & post & H).
    destruct pre; discriminate H.
  - cbn [split]. pose proof (split_nonempty sep s) as Hne.
    destruct (Ascii.eqb_spec c sep) as [-> | Hc].
    + split.
      * destruct (split sep s); [contradiction | discriminate].
      * intros Hno. destruct Hno. now exists EmptyString, s.
    + destruct (split sep s) as [| seg segs]; [contradiction |].
      cbn [nth_error] in *. rewrite IH. split; intros Hno (pre & post & H).
      * destruct pre as [| p pre]; cbn [append] in H; injection H as Hp H.
        -- now destruct Hc.
        -- apply Hno. now exists pre, post.
      * apply Hno. exists (String c pre), post. cbn [append]. now rewrite H.
Qed.

Section NormalizerMore.
Context {RT : JsRuntime} {Base : ExchangeBase}.

(** X7.  [fetchMarkets] returns one entry per record of the response, in
    the order of the response, and each entry keeps its raw record under
    [info]. *)
Theorem fetchMarkets_keeps_records (markets : list JsValue)
    (result : list Market.t) :
  fetchMarkets markets = Return result ->
  map Market.info result = markets.
Proof.
  intros H. apply fetchMarkets_result in H.
  induction H as [| market entry markets result Hentry _ IH]; [reflexivity |].
  destruct Hentry as (s & qi & us & _ & ->). cbn [map entry_of Market.info].
  now rewrite IH.
Qed.

(** X8.  [fetchMarkets] is all or nothing: if one record of the response
    has no string for [product_id] (the key is missing, or the value is a
    number, [null], ...), the call raises [TypeError] and returns no
    market at all, whatever the other records are. *)
Theorem fetchMarkets_all_or_nothing (markets : list JsValue) :
  Exists (fun market => forall s, js_get market "product_id" <> Return (JStr s))
         markets ->
  fetchMarkets markets = Throw TypeError.
Proof.
  intros Hbad. destruct (fetchMarkets markets) as [result | e] eqn:H.
  - apply fetchMarkets_result in H. exfalso.
    induction H as [| market entry markets result Hentry _ IH].
    + inversion Hbad.
    + inversion Hbad as [? ? Hhere | ? ? Hthere]; subst.
      * destruct Hentry as (s & _ & _ & Hid & _). exact (Hhere s Hid).
      * exact (IH Hthere).
  - now rewrite (fetchMarkets_loop_throws _ _ _ H).
Qed.

(** X9.  In every entry [fetchMarkets] returns, [quoteId] is [undefined]
    exactly when the product id contains no hyphen. *)
Theorem fetchMarkets_quoteId_undefined (markets : list JsValue)
    (result : list Market.t) :
  fetchMarkets markets = Return result ->
  Forall (fun entry =>
            exists s,
              Market.id entry = JStr s /\
              (Market.quoteId entry = JUndefined <-> ~ Substring "-" s))
         result.
Proof.
  intros H. apply fetchMarkets_result in H.
  eapply Forall2_right; [| exact H].
  intros market entry (s & qi & us & _ & ->).
  exists s. split; [reflexivity |].
  cbn [entry_of Market.quoteId]. rewrite <- (split_second "-" s). unfold item.
  destruct (nth_error (split "-" s) 1); split; congruence.
Qed.

(** X10.  In every entry [fetchMarkets] returns whose [baseId] and
    [quoteId] are both strings, the product id is [baseId], a hyphen and
    [quoteId] exactly when the id has two segments: an id with more
    hyphens is not recovered from the two. *)
Theorem fetchMarkets_id_from_segments (markets : list JsValue)
    (result : list Market.t) :
  fetchMarkets markets = Return result ->
  Forall (fun entry =>
            forall s b q,
              Market.id entry = JStr s ->
              Market.baseId entry = JStr b ->
              Market.quoteId entry = JStr q ->
              (s = b ++ "-" ++ q <-> length (split "-" s) = 2%nat))
         result.
Proof.
  intros H. apply fetchMarkets_result in H.
  eapply Forall2_right; [| exact H].
  intros market entry (s0 & qi & us & _ & ->) s b q Hid Hb Hq.
  cbn [entry_of Market.id Market.baseId Market.quoteId] in Hid, Hb, Hq.
  injection Hid as <-. pose proof (concat_split "-" s0) as Hjoin.
  unfold item in Hb, Hq.
  destruct (split "-" s0) as [| b' [| q' rest]]; cbn [nth_error] in Hb, Hq;
    try discriminate.
  injection Hb as ->. injection Hq as ->.
  destruct rest as [| r rest]; cbn [String.concat length] in *.
  - split; [reflexivity | intros _; now rewrite <- Hjoin].
  - split; [| discriminate]. intros Hs. exfalso.
    rewrite Hs in Hjoin. apply append_cancel in Hjoin.
    change ("-" ++ q ++ ?x) with (String "-" (q ++ x)) in Hjoin.
    cbn [append] in Hjoin. injection Hjoin as Hjoin.
    apply (f_equal String.length) in Hjoin.
    rewrite length_append in Hjoin. cbn [String.length] in Hjoin. lia.
Qed.

End NormalizerMore.

(** ** Currencies *)

Lemma lookup_assign_same {A : Type} (k : string) (v : A)
    (tbl : list (string * A)) :
  lookup k (assign k v tbl) = Some v.
Proof.
  induction tbl as [| [k' v'] tbl IH]; cbn [assign lookup].
  - now rewrite String.eqb_refl.
  - destruct (String.eqb k k') eqn:E; cbn [lookup]; rewrite ?String.eqb_refl, ?E;
      [reflexivity | exact IH].
Qed.

Lemma lookup_assign_other {A : Type} (k k' : string) (v : A)
    (tbl : list (string * A)) :
  k <> k' -> lookup k (assign k' v tbl) = lookup k tbl.
Proof.
  intros Hne. induction tbl as [| [k0 v0] tbl IH]; cbn [assign lookup].
  - destruct (String.eqb_spec k k'); [contradiction | reflexivity].
  - destruct (String.eqb_spec k' k0) as [-> | Hk0]; cbn [lookup].
    + destruct (String.eqb_spec k k0); [contradiction | reflexivity].
    + destruct (String.eqb k k0); [reflexivity | exact IH].
Qed.

(** An assignment adds or replaces one value. *)
Lemma lookup_assign_cases {A : Type} (k k' : string) (v e : A)
    (tbl : list (string * A)) :
  lookup k (assign k' v tbl) = Some e -> e = v \/ lookup k tbl = Some e.
Proof.
  destruct (String.eqb_spec k k') as [-> | Hne].
  - rewrite lookup_assign_same. intros H. injection H as <-. now left.
  - rewrite (lookup_assign_other _ _ _ _ Hne). now right.
Qed.

Section CurrenciesFacts.
Context {RT : JsRuntime} {Base : ExchangeBase} {Safe : ExchangeSafe}.

(** What the loop body assigns for a record it accepts. *)
Lemma fetchCurrencies_entry_shape (currency code : JsValue) (entry : Currency.t) :
  fetchCurrencies_entry currency = Return (code, entry) ->
  exists name deposit_status withdraw_status,
    safeValue currency "name" = JStr name /\
    code = commonCurrencyCode (JStr (toUpperCase name)) /\
    js_get currency "deposit_status" = Return deposit_status /\
    js_get currency "withdraw_status" = Return withdraw_status /\
    Currency.id entry = JStr name /\
    Currency.code entry = code /\
    Currency.active entry =
      (if truthy deposit_status then withdraw_status else deposit_status) /\
    Currency.info entry = currency.
Proof.
  unfold fetchCurrencies_entry. intros H.
  destruct (safeValue currency "name") as [| | b | x | s | items | fields] eqn:Hid;
    cbn [js_toUpperCase bind] in H; try discriminate H.
  destruct (js_get currency "deposit_status") as [d | e] eqn:Hd;
    cbn [bind] in H; [| discriminate H].
  destruct (js_get_again currency _ "withdraw_status" _ Hd) as [w Hw].
  destruct (js_get_again currency _ "name" _ Hd) as [n Hn].
  rewrite Hw, Hn in H.
  exists s, d, w.
  destruct (truthy d); cbn [bind] in H; injection H as <- <-;
    repeat split; assumption.
Qed.

(** The loop body raises nothing but [TypeError]. *)
Lemma fetchCurrencies_entry_throws (currency : JsValue) (e : Exception) :
  fetchCurrencies_entry currency = Throw e -> e = TypeError.
Proof.
  unfold fetchCurrencies_entry. intros H.
  destruct (safeValue currency "name"); cbn [js_toUpperCase bind] in H;
    try congruence.
  destruct (js_get currency "deposit_status") as [d | e'] eqn:Hd;
    cbn [bind] in H.
  - destruct (js_get_again currency _ "withdraw_status" _ Hd) as [w Hw].
    destruct (js_get_again currency _ "name" _ Hd) as [n Hn].
    rewrite Hw, Hn in H. destruct (truthy d); discriminate H.
  - destruct currency; cbn [js_get] in Hd; congruence.
Qed.

(** A record whose name is not a string is refused. *)
Lemma fetchCurrencies_entry_nameless (currency : JsValue) :
  (forall s, safeValue currency "name" <> JStr s) ->
  fetchCurrencies_entry currency = Throw TypeError.
Proof.
  intros Hname. unfold fetchCurrencies_entry.
  destruct (safeValue currency "name") as [| | b | x | s | items | fields];
    try reflexivity.
  now destruct (Hname s).
Qed.

(** Every value of the result was assigned by the loop body, for a record
    of the response or of the table the loop started from. *)
Lemma fetchCurrencies_loop_origin (P : Currency.t -> Prop)
    (response : list JsValue) :
  (forall currency code entry,
     In currency response ->
     fetchCurrencies_entry currency = Return (code, entry) -> P entry) ->
  forall acc result,
    (forall key entry, lookup key acc = Some entry -> P entry) ->
    fetchCurrencies_loop response acc = Return result ->
    forall key entry, lookup key result = Some entry -> P entry.
Proof.
  induction response as [| currency response IH]; intros HP acc result Hacc H.
  - cbn [fetchCurrencies_loop] in H. injection H as <-. exact Hacc.
  - cbn [fetchCurrencies_loop] in H.
    destruct (fetchCurrencies_entry currency) as [[code entry] | e] eqn:He;
      cbn [bind fst snd] in H; [| discriminate H].
    refine (IH _ _ _ _ H).
    + intros c k e' Hin. apply HP. now right.
    + intros key entry' Hlook.
      destruct (lookup_assign_cases _ _ _ _ _ Hlook) as [-> | Hold].
      * exact (HP currency code entry (or_introl eq_refl) He).
      * exact (Hacc _ _ Hold).
Qed.

(** Records whose code differs from [key] leave the value under [key]. *)
Lemma fetchCurrencies_loop_keeps (key : string) (response : list JsValue) :
  Forall (fun currency =>
            forall code entry,
              fetchCurrencies_entry currency = Return (code, entry) ->
              ToString code <> key)
         response ->
  forall acc result,
    fetchCurrencies_loop response acc = Return result ->
    lookup key result = lookup key acc.
Proof.
  induction 1 as [| currency response Hc _ IH]; intros acc result H.
  - cbn [fetchCurrencies_loop] in H. now injection H as <-.
  - cbn [fetchCurrencies_loop] in H.
    destruct (fetchCurrencies_entry currency) as [[code entry] | e] eqn:He;
      cbn [bind fst snd] in H; [| discriminate H].
    rewrite (IH _ _ H). apply lookup_assign_other.
    intros Heq. exact (Hc code entry eq_refl (eq_sym Heq)).
Qed.

Lemma fetchCurrencies_loop_app (before after : list JsValue) :
  forall acc,
    fetchCurrencies_loop (before ++ after)%list acc =
      (middle <- fetchCurrencies_loop before acc ;;
       fetchCurrencies_loop after middle).
Proof.
  induction before as [| currency before IH]; intros acc; [reflexivity |].
  cbn [app fetchCurrencies_loop].
  destruct (fetchCurrencies_entry currency) as [[code entry] | e];
    cbn [bind]; [apply IH | reflexivity].
Qed.

(** X11.  In every currency [fetchCurrencies] returns, [active] is the
    value of [deposit_status && withdraw_status] of the raw record: the
    withdraw status itself (of whatever type) when the deposit status is
    truthy, the deposit status itself otherwise; it is truthy exactly when
    both are. *)
Theorem fetchCurrencies_active (response : list JsValue)
    (result : list (string * Currency.t)) :
  fetchCurrencies response = Return result ->
  forall key entry,
    lookup key result = Some entry ->
    exists deposit_status withdraw_status,
      js_get (Currency.info entry) "deposit_status" = Return deposit_status /\
      js_get (Currency.info entry) "withdraw_status" = Return withdraw_status /\
      Currency.active entry =
        (if truthy deposit_status then withdraw_status else deposit_status) /\
      truthy (Currency.active entry) =
        truthy deposit_status && truthy withdraw_status.
Proof.
  intros H. refine (fetchCurrencies_loop_origin _ response _ [] result _ H).
  - intros currency code entry _ He.
    destruct (fetchCurrencies_entry_shape _ _ _ He)
      as (upper & d & w & _ & _ & Hd & Hw & _ & _ & Hactive & Hinfo).
    exists d, w. rewrite Hinfo, Hactive. repeat split; try assumption.
    destruct (truthy d) eqn:Hd'; [reflexivity | exact Hd'].
  - intros key entry Hnone. discriminate Hnone.
Qed.

(** X12.  [fetchCurrencies] keeps one currency per code, the last.  For
    a record [currency] of the response and the records after it, all with
    names of ASCII characters: when no record after [currency] has a code
    of the same text, the result holds under that text what the loop body
    made of [currency], whatever came before. *)
Theorem fetchCurrencies_last_wins (before after : list JsValue)
    (currency code : JsValue) (entry : Currency.t)
    (result : list (string * Currency.t)) :
  Forall (fun record =>
            forall name,
              safeValue record "name" = JStr name -> ascii_only name = true)
         (currency :: after) ->
  fetchCurrencies (before ++ currency :: after)%list = Return result ->
  fetchCurrencies_entry currency = Return (code, entry) ->
  Forall (fun later =>
            forall code' entry',
              fetchCurrencies_entry later = Return (code', entry') ->
              ToString code' <> ToString code)
         after ->
  lookup (ToString code) result = Some entry.
Proof.
  unfold fetchCurrencies. intros _ H He Hafter.
  rewrite fetchCurrencies_loop_app in H.
  destruct (fetchCurrencies_loop before []) as [middle | e]; cbn [bind] in H;
    [| discriminate H].
  cbn [fetchCurrencies_loop] in H. rewrite He in H. cbn [bind fst snd] in H.
  rewrite (fetchCurrencies_loop_keeps _ _ Hafter _ _ H).
  apply lookup_assign_same.
Qed.

(** X13.  [fetchCurrencies] is all or nothing: if [safeValue] finds no
    string under [name] in one record of the response, the call raises
    [TypeError] and returns no currency at all. *)
Theorem fetchCurrencies_all_or_nothing (response : list JsValue) :
  Exists (fun currency => forall s, safeValue currency "name" <> JStr s)
         response ->
  fetchCurrencies response = Throw TypeError.
Proof.
  intros Hbad. unfold fetchCurrencies.
  generalize (@nil (string * Currency.t)).
  induction Hbad as [currency response Hname | currency response _ IH];
    intros acc; cbn [fetchCurrencies_loop].
  - now rewrite (fetchCurrencies_entry_nameless _ Hname).
  - destruct (fetchCurrencies_entry currency) as [[code entry] | e] eqn:He;
      cbn [bind].
    + apply IH.
    + now rewrite (fetchCurrencies_entry_throws _ _ He).
Qed.

End CurrenciesFacts.

(** ** Orders *)

(** X14.  Whatever the venue does, a run of [cancelOrder] with a falsy id
    ([undefined], [null], the empty string, 0, [NaN], [false]) sends no
    request at all and resolves to [undefined]; with any other id it sends
    one request and no more, to [privateDeleteOrdersSymbolId], with exactly
    the keys [id] and [symbol], and ends as that request does: it resolves
    to the response, or raises what the request raised.  The [params]
    argument reaches neither the requests nor the result. *)
Theorem cancelOrder_request (venue : Endpoint -> JsValue -> Outcome JsValue)
    (id symbol : JsValue) (params : Obj) :
  let request := JObj [ ("id", id); ("symbol", symbol) ] in
  run venue (cancelOrder id symbol params) =
    if truthy id
    then ([ (privateDeleteOrdersSymbolId, request) ],
          venue privateDeleteOrdersSymbolId request)
    else ([], Return JUndefined).
Proof.
  unfold cancelOrder. destruct (truthy id); cbn [negb run]; [| reflexivity].
  now destruct (venue privateDeleteOrdersSymbolId _).
Qed.

(** ** The further properties at work *)

(** X2 at work: the class raised for a known message is in the table, and
    the text is the id and the body. *)
Lemma handleErrors_raised_class_witness :
  (exists response,
     Sample.JSON_parse Sample.nonce_body = Some response /\
     "cpdax " ++ Sample.nonce_body = "cpdax " ++ Sample.JSON_stringify response) /\
  (InvalidNonce = ExchangeError \/
   In InvalidNonce (map snd (Exceptions.exact (exceptions describe))) \/
   In InvalidNonce (map snd (Exceptions.broad (exceptions describe)))).
Proof.
  refine (handleErrors_raised_class (RT := Sample.runtime) (Base := Sample.base)
            describe 400 "" "https://www.cpdax.com/v1/orders" "POST" JUndefined
            Sample.nonce_body InvalidNonce ("cpdax " ++ Sample.nonce_body) _ _).
  - intros broad message k t. destruct message; discriminate.
  - vm_compute. reflexivity.
Defined.

(** X3 at work: a venue that answers [toString]. *)
Lemma handleErrors_inherited_name_witness :
  exists e,
    Run.classify 400 SampleSafe.toString_body = Throw e /\
    forall kind text, e <> CcxtError kind text.
Proof.
  refine (handleErrors_inherited_name (RT := Sample.runtime) (Base := Sample.base)
            describe 400 "" "https://www.cpdax.com/v1/orders" "POST" JUndefined
            SampleSafe.toString_body [("message", JStr "toString")] "toString"
            _ _ _ _ _ _ _).
  - vm_compute; lia.
  - lia.
  - reflexivity.
  - vm_compute. reflexivity.
  - left. reflexivity.
  - reflexivity.
  - reflexivity.
Defined.

(** X4 at work: a public ticker, with and without credentials. *)
Lemma sign_public_without_credentials_witness :
  Run.signed (with_credentials describe JUndefined JNull)
    "tickers/{symbol}" "public" "GET" [ ("symbol", JStr "BTC-KRW") ] =
  Run.signed describe
    "tickers/{symbol}" "public" "GET" [ ("symbol", JStr "BTC-KRW") ].
Proof.
  refine (proj1 (sign_public_without_credentials
                   (RT := Sample.runtime) (Base := Sample.base)
                   describe 1530000000 "tickers/{symbol}" "public" "GET"
                   [ ("symbol", JStr "BTC-KRW") ] JUndefined JUndefined
                   JUndefined JNull 1530000000 _)).
  discriminate.
Defined.

(** X5 at work: the limit of a private listing is dropped. *)
Lemma sign_private_drops_params_witness :
  Run.signed describe "orders/{symbol}" "private" "GET"
    [ ("symbol", JStr "BTC-KRW"); ("limit", JNum 5) ] =
  Run.signed describe "orders/{symbol}" "private" "GET"
    [ ("symbol", JStr "BTC-KRW") ].
Proof.
  refine (sign_private_drops_params (RT := Sample.runtime) (Base := Sample.base)
            describe 1530000000 "orders/{symbol}" "private" "GET"
            [ ("symbol", JStr "BTC-KRW"); ("limit", JNum 5) ]
            JUndefined JUndefined [ ("symbol", JStr "BTC-KRW") ] eq_refl _ _ _).
  - discriminate.
  - reflexivity.
  - reflexivity.
Defined.

(** X6 at work: a class [v2] that [describe ()] does not know, and the
    class [constructor], which every object inherits. *)
Lemma sign_unknown_api_class_witness :
  Run.signed describe "balance" "v2" "GET" [] =
    Return {|
      Request.url := "undefined/v1/balance";
      Request.method := "GET";
      Request.body := JUndefined;
      Request.headers := JUndefined
    |} /\
  Run.signed describe "balance" "constructor" "GET" [] =
    Return {|
      Request.url := "function Object() { [native code] }/v1/balance";
      Request.method := "GET";
      Request.body := JUndefined;
      Request.headers := JUndefined
    |}.
Proof.
  split.
  - refine (sign_unknown_api_class (RT := Sample.runtime) (Base := Sample.base)
              1530000000 "balance" "v2" "GET" [] JUndefined JUndefined _ _);
      discriminate.
  - refine (sign_unknown_api_class (RT := Sample.runtime) (Base := Sample.base)
              1530000000 "balance" "constructor" "GET" [] JUndefined JUndefined
              _ _);
      discriminate.
Defined.

(** X7 at work. *)
Lemma fetchMarkets_keeps_records_witness :
  exists result,
    Run.markets [ Sample.unsplit; Sample.btc_krw ] = Return result /\
    map Market.info result = [ Sample.unsplit; Sample.btc_krw ].
Proof.
  eexists. split; [vm_compute; reflexivity |].
  apply (fetchMarkets_keeps_records (RT := Sample.runtime) (Base := Sample.base)).
  vm_compute. reflexivity.
Defined.

(** X8 at work: one record without [product_id] among good ones. *)
Lemma fetchMarkets_all_or_nothing_witness :
  Run.markets [ Sample.btc_krw; SampleSafe.anonymous_market; Sample.unsplit ] =
    Throw TypeError.
Proof.
  apply (fetchMarkets_all_or_nothing (RT := Sample.runtime) (Base := Sample.base)).
  apply Exists_cons_tl, Exists_cons_hd. intros s. discriminate.
Defined.

(** X9 at work: one id without a hyphen, one with. *)
Lemma fetchMarkets_quoteId_undefined_witness :
  exists result,
    Run.markets [ Sample.unsplit; Sample.btc_krw ] = Return result /\
    Forall (fun entry =>
              exists s,
                Market.id entry = JStr s /\
                (Market.quoteId entry = JUndefined <-> ~ Substring "-" s))
           result.
Proof.
  eexists. split; [vm_compute; reflexivity |].
  apply (fetchMarkets_quoteId_undefined (RT := Sample.runtime) (Base := Sample.base)
           [ Sample.unsplit; Sample.btc_krw ]).
  vm_compute. reflexivity.
Defined.

(** X10 at work: an id of two segments, and one of three. *)
Lemma fetchMarkets_id_from_segments_witness :
  exists result,
    Run.markets [ Sample.btc_krw; SampleSafe.three_part ] = Return result /\
    Forall (fun entry =>
              forall s b q,
                Market.id entry = JStr s ->
                Market.baseId entry = JStr b ->
                Market.quoteId entry = JStr q ->
                (s = b ++ "-" ++ q <-> length (split "-" s) = 2%nat))
           result.
Proof.
  eexists. split; [vm_compute; reflexivity |].
  apply (fetchMarkets_id_from_segments (RT := Sample.runtime) (Base := Sample.base)
           [ Sample.btc_krw; SampleSafe.three_part ]).
  vm_compute. reflexivity.
Defined.

(** X11 at work: a deposit status of 1 and a withdraw status that is a
    text give a currency whose [active] is that text. *)
Lemma fetchCurrencies_active_witness :
  exists result entry,
    SampleSafe.currencies [ SampleSafe.btc; SampleSafe.ETH ] = Return result /\
    lookup "ETH" result = Some entry /\
    Currency.active entry = JStr "enabled" /\
    truthy (Currency.active entry) = true.
Proof.
  do 2 eexists. split; [vm_compute; reflexivity |].
  split; [vm_compute; reflexivity |].
  destruct (fetchCurrencies_active
              (RT := Sample.runtime) (Base := Sample.base) (Safe := SampleSafe.safe)
              [ SampleSafe.btc; SampleSafe.ETH ] _ eq_refl "ETH" _ eq_refl)
    as (d & w & Hd & Hw & Hactive & Htruthy).
  injection Hd as <-. injection Hw as <-. split; [exact Hactive | exact Htruthy].
Defined.

(** X12 at work: [eth] and [ETH] have the same code, and the later record
    is the one that stays. *)
Lemma fetchCurrencies_last_wins_witness :
  exists result entry,
    SampleSafe.currencies [ SampleSafe.eth; SampleSafe.ETH; SampleSafe.btc ] =
      Return result /\
    lookup "ETH" result = Some entry /\
    Currency.info entry = SampleSafe.ETH.
Proof.
  do 2 eexists. split; [vm_compute; reflexivity |]. split.
  - refine (fetchCurrencies_last_wins
              (RT := Sample.runtime) (Base := Sample.base) (Safe := SampleSafe.safe)
              [ SampleSafe.eth ] [ SampleSafe.btc ] SampleSafe.ETH (JStr "ETH") _ _
              _ eq_refl _ _).
    + repeat constructor; intros name Hname; injection Hname as <-; reflexivity.
    + vm_compute. reflexivity.
    + repeat constructor. intros code' entry' H. vm_compute in H.
      injection H as <- _. discriminate.
  - reflexivity.
Defined.

(** X13 at work: one record without a name. *)
Lemma fetchCurrencies_all_or_nothing_witness :
  SampleSafe.currencies [ SampleSafe.btc; SampleSafe.nameless ] = Throw TypeError.
Proof.
  apply (fetchCurrencies_all_or_nothing
           (RT := Sample.runtime) (Base := Sample.base) (Safe := SampleSafe.safe)).
  apply Exists_cons_tl, Exists_cons_hd. intros s. discriminate.
Defined.
